(** * StudyFlow bookmarklet: discovery, filtering and draft generation

    A shallow embedding of [bookmarklet/studyflow.js].  JavaScript strings
    are modelled as Rocq strings whose characters stand for the code units
    0..255; the page is a tree of elements; the browser (location, network,
    console, overlay panel, timers) is an explicit world threaded through a
    small state-and-exception monad. *)

From Stdlib Require Import String Ascii List Arith Lia Bool QArith Permutation DecimalString.
From stdpp Require Import base gmap strings.
Import ListNotations.
Set Warnings "-register-all".
Local Open Scope string_scope.
Local Open Scope nat_scope.
Local Open Scope list_scope.

(** ** JavaScript string primitives *)

Module JSString.

(** The double quote, and the line feed that [split] cuts on. *)
Definition dq : string := String (ascii_of_nat 34) EmptyString.
Definition nl : string := String (ascii_of_nat 10) EmptyString.
Definition LF : ascii := ascii_of_nat 10.

(** WhiteSpace and LineTerminator code units below 256: TAB, LF, VT, FF,
    CR, SP and NBSP.  This is the set used by [trim] and by [\s]. *)
Definition isWhiteSpace (c : ascii) : bool :=
  let n := nat_of_ascii c in
  ((9 <=? n) && (n <=? 13)) || (n =? 32) || (n =? 160).

Definition isEmpty (s : string) : bool :=
  match s with EmptyString => true | String _ _ => false end.

Fixpoint trimStart (s : string) : string :=
  match s with
  | EmptyString => EmptyString
  | String c r => if isWhiteSpace c then trimStart r else s
  end.

Fixpoint trimEnd (s : string) : string :=
  match s with
  | EmptyString => EmptyString
  | String c r =>
      let r' := trimEnd r in
      if isWhiteSpace c && isEmpty r' then EmptyString else String c r'
  end.

Definition trim (s : string) : string := trimEnd (trimStart s).

(** [toLowerCase] on one code unit: A-Z, and the Latin-1 capitals
    0xC0..0xDE except the multiplication sign 0xD7. *)
Definition lowerChar (c : ascii) : ascii :=
  let n := nat_of_ascii c in
  if ((65 <=? n) && (n <=? 90)) || ((192 <=? n) && (n <=? 222) && negb (n =? 215))
  then ascii_of_nat (n + 32) else c.

Fixpoint toLowerCase (s : string) : string :=
  match s with
  | EmptyString => EmptyString
  | String c r => String (lowerChar c) (toLowerCase r)
  end.

Fixpoint startsWith (s p : string) : bool :=
  match p, s with
  | EmptyString, _ => true
  | String _ _, EmptyString => false
  | String a p', String b s' => Ascii.eqb a b && startsWith s' p'
  end.

Fixpoint includes (s sub : string) : bool :=
  startsWith s sub ||
  match s with
  | EmptyString => false
  | String _ r => includes r sub
  end.

(** [s.split] on the line feed: always at least one piece. *)
Fixpoint splitLines (s : string) : list string :=
  match s with
  | EmptyString => [EmptyString]
  | String c r =>
      if Ascii.eqb c LF then EmptyString :: splitLines r
      else match splitLines r with
           | h :: t => String c h :: t
           | [] => [String c EmptyString]
           end
  end.

(** [s.substring(0, n)]. *)
Definition substring0 (n : nat) (s : string) : string := String.substring 0 n s.

(** [arr.join(sep)]. *)
Fixpoint join (sep : string) (l : list string) : string :=
  match l with
  | [] => EmptyString
  | [x] => x
  | x :: r => x +:+ sep +:+ join sep r
  end.

(** [s.replace] of every double quote by the entity [&quot;]. *)
Fixpoint escapeQuotes (s : string) : string :=
  match s with
  | EmptyString => EmptyString
  | String c r =>
      if Ascii.eqb c (ascii_of_nat 34) then "&quot;" +:+ escapeQuotes r
      else String c (escapeQuotes r)
  end.

(** Template-literal interpolation of a number. *)
Definition ofNat (n : nat) : string := NilEmpty.string_of_uint (Nat.to_uint n).

(** [a || b] on a possibly undefined string: the empty string is falsy. *)
Definition orElse (a : option string) (b : string) : string :=
  match a with
  | Some s => if isEmpty s then b else s
  | None => b
  end.

End JSString.
Import JSString.

(** ** Regular expressions

    A backtracking matcher in continuation-passing style, with the priority
    order of ECMAScript (left alternative first, greedy quantifiers, an
    iteration that consumes nothing is rejected). *)

Module JSRegExp.

Inductive Pattern : Type :=
| PEmpty
| PChar (c : ascii)
| PSpace                      (* \s *)
| PWordB                      (* \b *)
| PSeq (a b : Pattern)
| PAlt (a b : Pattern)
| POpt (a : Pattern)          (* a? *)
| PStar (a : Pattern).        (* a* *)

(** Canonicalize of the [i] flag, on code units below 256. *)
Definition canonicalize (c : ascii) : ascii :=
  let n := nat_of_ascii c in
  if ((97 <=? n) && (n <=? 122)) || ((224 <=? n) && (n <=? 254) && negb (n =? 247))
  then ascii_of_nat (n - 32) else c.

Definition charMatches (ignoreCase : bool) (p c : ascii) : bool :=
  if ignoreCase then Ascii.eqb (canonicalize p) (canonicalize c) else Ascii.eqb p c.

(** The word characters of [\b]: [A-Za-z0-9_]. *)
Definition isWordChar (c : ascii) : bool :=
  let n := nat_of_ascii c in
  ((48 <=? n) && (n <=? 57)) || ((65 <=? n) && (n <=? 90))
  || ((97 <=? n) && (n <=? 122)) || (n =? 95).

Definition wordBefore (prev : option ascii) : bool :=
  match prev with Some c => isWordChar c | None => false end.

Definition wordAfter (s : string) : bool :=
  match s with String c _ => isWordChar c | EmptyString => false end.

(** A continuation receives the character just consumed (if any) and the
    rest of the input; the matcher returns the input left after the whole
    match. *)
Definition Cont := option ascii -> string -> option string.

Definition progress (s : string) (k : Cont) : Cont :=
  fun p' s' => if String.length s' <? String.length s then k p' s' else None.

Fixpoint matchAt (i : bool) (r : Pattern) (prev : option ascii) (s : string)
         (k : Cont) {struct r} : option string :=
  match r with
  | PEmpty => k prev s
  | PChar c =>
      match s with
      | String d s' => if charMatches i c d then k (Some d) s' else None
      | EmptyString => None
      end
  | PSpace =>
      match s with
      | String d s' => if isWhiteSpace d then k (Some d) s' else None
      | EmptyString => None
      end
  | PWordB => if xorb (wordBefore prev) (wordAfter s) then k prev s else None
  | PSeq a b => matchAt i a prev s (fun p' s' => matchAt i b p' s' k)
  | PAlt a b =>
      match matchAt i a prev s k with
      | Some e => Some e
      | None => matchAt i b prev s k
      end
  | POpt a =>
      match matchAt i a prev s (progress s k) with
      | Some e => Some e
      | None => k prev s
      end
  | PStar a =>
      (fix star (fuel : nat) (prev : option ascii) (s : string) : option string :=
         match fuel with
         | O => k prev s
         | S fuel' =>
             match matchAt i a prev s (progress s (star fuel')) with
             | Some e => Some e
             | None => k prev s
             end
         end) (String.length s) prev s
  end.

(** Leftmost match at or after the current position. *)
Fixpoint search (i : bool) (r : Pattern) (prev : option ascii) (s : string)
  : option string :=
  match matchAt i r prev s (fun _ rest => Some rest) with
  | Some rest => Some rest
  | None =>
      match s with
      | EmptyString => None
      | String c s' => search i r (Some c) s'
      end
  end.

(** Move to index [n] of the input, remembering the character before it. *)
Fixpoint seek (n : nat) (prev : option ascii) (s : string) : option ascii * string :=
  match n, s with
  | S n', String c s' => seek n' (Some c) s'
  | _, _ => (prev, s)
  end.

(** A RegExp object: its pattern, the [i] and [g] flags, and the mutable
    [lastIndex] that [test] reads and writes when [g] is set. *)
Record RegExp : Type := mkRegExp {
  pattern : Pattern;
  ignoreCase : bool;
  global : bool;
  lastIndex : nat
}.

Definition setLastIndex (n : nat) (re : RegExp) : RegExp :=
  mkRegExp (pattern re) (ignoreCase re) (global re) n.

(** [re.test(s)]: the answer and the object afterwards. *)
Definition test (re : RegExp) (s : string) : bool * RegExp :=
  if global re then
    if String.length s <? lastIndex re then (false, setLastIndex 0 re)
    else
      let '(prev, s') := seek (lastIndex re) None s in
      match search (ignoreCase re) (pattern re) prev s' with
      | Some rest => (true, setLastIndex (String.length s - String.length rest) re)
      | None => (false, setLastIndex 0 re)
      end
  else
    match search (ignoreCase re) (pattern re) None s with
    | Some _ => (true, re)
    | None => (false, re)
    end.

(** The pattern of a literal word. *)
Fixpoint literal (w : string) : Pattern :=
  match w with
  | EmptyString => PEmpty
  | String c EmptyString => PChar c
  | String c r => PSeq (PChar c) (literal r)
  end.

Fixpoint sequence (l : list Pattern) : Pattern :=
  match l with
  | [] => PEmpty
  | [p] => p
  | p :: r => PSeq p (sequence r)
  end.

End JSRegExp.
Import JSRegExp.

(** ** Classification rules *)

Definition IGNORE_COURSES : list string :=
  [ "fbla"; "deca"; "speech & debate"; "honor society"; "nhs";
    "sat prep"; "sat math"; "math honor" ].

Definition IGNORE_TYPES : list string := [ "leq"; "dbq"; "mcq"; "saq"; "frq" ].

(** [/ap\s*u\.?s\.?\s*hist|apush/i] *)
Definition APUSH_PATTERN : Pattern :=
  PAlt (sequence [ PChar "a"; PChar "p"; PStar PSpace;
              PChar "u"; POpt (PChar "."); PChar "s"; POpt (PChar ".");
              PStar PSpace; PChar "h"; PChar "i"; PChar "s"; PChar "t" ]%char)
       (literal "apush").

Definition APUSH_RE : RegExp := mkRegExp APUSH_PATTERN true false 0.

(** [new RegExp] of [\b], the token [t] and [\b], with the [i] flag, for
    a token made of letters. *)
Definition wordRegExp (t : string) : RegExp :=
  mkRegExp (sequence [PWordB; literal t; PWordB]) true false 0.

(** [combined], and the first and third conditions of [shouldSkip]. *)
Definition combinedOf (title course : string) : string :=
  toLowerCase (title +:+ " " +:+ course).

Definition ruleCourse (courses : list string) (title course : string) : bool :=
  existsb (fun c => includes (combinedOf title course) c) courses.

Definition ruleType (types : list string) (title : string) : bool :=
  existsb (fun t => fst (test (wordRegExp t) title)) types.

(** [shouldSkip], threading the one object it shares between calls: the
    [APUSH_RE] regular expression. *)
Definition shouldSkipWith (courses types : list string) (re : RegExp)
           (title course : string) : bool * RegExp :=
  if ruleCourse courses title course then (true, re)
  else
    let '(hit, re') := test re (combinedOf title course) in
    if hit then (true, re')
    else if ruleType types title then (true, re')
    else (false, re').

Definition shouldSkipState (re : RegExp) (title course : string) : bool * RegExp :=
  shouldSkipWith IGNORE_COURSES IGNORE_TYPES re title course.

(** [APUSH_RE] has no [g] flag, so [test] never changes it (lemma
    [shouldSkipState_pure] below); callers use the boolean alone. *)
Definition shouldSkip (title course : string) : bool :=
  fst (shouldSkipState APUSH_RE title course).


(** ** The page

    The live document as the extractor sees it at the moment it runs: a
    tree of elements, each with its tag name (lower case), its attributes
    and the [innerText] the browser renders for it ([None] for an element
    that is not an HTMLElement, where the property is undefined). *)

Module DOM.

Inductive Element : Type :=
| Elem (tag : string) (attrs : list (string * string))
       (text : option string) (kids : list Element).

Definition tagName (e : Element) : string :=
  match e with Elem t _ _ _ => t end.
Definition attributes (e : Element) : list (string * string) :=
  match e with Elem _ a _ _ => a end.
Definition innerText (e : Element) : option string :=
  match e with Elem _ _ x _ => x end.
Definition children (e : Element) : list Element :=
  match e with Elem _ _ _ k => k end.

Fixpoint assoc {A : Type} (k : string) (l : list (string * A)) : option A :=
  match l with
  | [] => None
  | (k', v) :: r => if String.eqb k k' then Some v else assoc k r
  end.

Definition getAttribute (e : Element) (name : string) : option string :=
  assoc name (attributes e).

(** An element together with its ancestors, nearest first. *)
Definition Node : Type := Element * list Element.

Definition element (n : Node) : Element := fst n.
Definition ancestors (n : Node) : list Element := snd n.

(** The element and its descendants, in document order. *)
Fixpoint subtree (anc : list Element) (e : Element) : list Node :=
  match e with
  | Elem _ _ _ kids => (e, anc) :: flat_map (subtree (e :: anc)) kids
  end.

Definition Selector := Element -> bool.

Definition querySelectorAll (sel : Selector) (root : Element) : list Node :=
  List.filter (fun n => sel (element n)) (subtree [] root).

(** [item.querySelector(sel)]: the first matching descendant. *)
Definition querySelector (sel : Selector) (item : Node) : option Node :=
  find (fun n => sel (element n))
       (flat_map (subtree (element item :: ancestors item)) (children (element item))).

(** [el.closest(sel)]: the element itself or its nearest matching ancestor. *)
Definition closest (sel : Selector) (n : Node) : option Element :=
  find sel (element n :: ancestors n).

(** [el.parentElement?.parentElement]. *)
Definition grandparent (n : Node) : option Element := nth_error (ancestors n) 1.

Definition isTag (t : string) : Selector := fun e => String.eqb (tagName e) t.

Definition hasAttribute (name : string) : Selector :=
  fun e => match getAttribute e name with Some _ => true | None => false end.

(** [[name*=sub]] *)
Definition attrContains (name sub : string) : Selector :=
  fun e => match getAttribute e name with Some v => includes v sub | None => false end.

End DOM.
Import DOM.

(** ** Record extractor *)

Record Assignment : Type := mkAssignment {
  title : string;
  course : string;
  url : string;
  text : string
}.

(** [a[href*="/c/"][href*="/a/"][href*="/details"]] *)
Definition detailLinkSelector : Selector :=
  fun e => isTag "a" e && attrContains "href" "/c/" e
           && attrContains "href" "/a/" e && attrContains "href" "/details" e.

(** [[class*="assignment"], [data-stream-item-id]] *)
Definition cardSelector : Selector :=
  fun e => attrContains "class" "assignment" e || hasAttribute "data-stream-item-id" e.

(** [a[href*="/details"]] *)
Definition anyDetailsSelector : Selector :=
  fun e => isTag "a" e && attrContains "href" "/details" e.

Definition fullUrlOf (href : string) : string :=
  if startsWith href "http" then href else "https://classroom.google.com" +:+ href.

Definition hrefOf (link : Node) : string :=
  orElse (getAttribute (element link) "href") EmptyString.

(** The card of a link: the closest element carrying an assignment id, else
    the closest list item, else the grandparent. *)
Definition cardOf (link : Node) : option Element :=
  match closest (hasAttribute "data-assignment-id") link with
  | Some c => Some c
  | None =>
      match closest (isTag "li") link with
      | Some c => Some c
      | None => grandparent link
      end
  end.

Definition cardTextOf (link : Node) : string :=
  trim (orElse (match cardOf link with Some c => innerText c | None => None end)
               (orElse (innerText (element link)) EmptyString)).

(** Primary pass: lines are trimmed, then those longer than 3 are kept. *)
Definition primaryLines (text : string) : list string :=
  List.filter (fun l => 3 <? String.length l) (map trim (splitLines text)).

(** Secondary pass: lines whose trimmed length exceeds 3 are kept as they are. *)
Definition secondaryLines (text : string) : list string :=
  List.filter (fun l => 3 <? String.length (trim l)) (splitLines text).

Definition firstLineOr (lines : list string) (dflt : string) : string :=
  orElse (nth_error lines 0) dflt.

Definition isCourseLine (line : string) : bool :=
  existsb (fun c => includes (toLowerCase line) c) IGNORE_COURSES
  || includes line "Block" || includes line "Period".

Definition courseOf (lines : list string) : string :=
  match find isCourseLine lines with Some l => l | None => EmptyString end.

Definition primaryRecord (link : Node) : Assignment :=
  let text := cardTextOf link in
  let lines := primaryLines text in
  mkAssignment (firstLineOr lines "Unknown") (courseOf lines) (fullUrlOf (hrefOf link)) text.

(** The loop state: the [assignments] array and the [seen] set. *)
Definition ScanState : Type := list Assignment * gset string.

(** One iteration of the loop over [allLinks]. *)
Definition scanLink (st : ScanState) (link : Node) : ScanState :=
  let '(assignments, seen) := st in
  let href := hrefOf link in
  if bool_decide (href ∈ seen) || includes href "not-turned-in" then st
  else
    let seen := {[ href ]} ∪ seen in
    let a := primaryRecord link in
    if negb (shouldSkip (title a) (course a))
    then (assignments ++ [a], seen)
    else (assignments, seen).

Definition primaryPass (doc : Element) : ScanState :=
  fold_left scanLink (querySelectorAll detailLinkSelector doc) ([], ∅).

(** Exceptions. *)
Record JSError : Type := mkError { errName : string; message : string }.

(** [err.stack], up to the engine's frame lines. *)
Definition stack (e : JSError) : string := errName e +:+ ": " +:+ message e.

Inductive Completion (A : Type) : Type :=
| Normal (a : A)
| Throw (e : JSError).
Arguments Normal {A} a.
Arguments Throw {A} e.

Definition secondaryRecord (itemText : string) (link : Node) : Assignment :=
  mkAssignment (firstLineOr (secondaryLines itemText) "Unknown") EmptyString
               (fullUrlOf (hrefOf link)) itemText.

(** One iteration of the loop over [items]; reading [innerText.trim] of an
    element without [innerText] raises a TypeError. *)
Definition scanItem (st : ScanState) (item : Node) : Completion ScanState :=
  let '(assignments, seen) := st in
  match innerText (element item) with
  | None => Throw (mkError "TypeError" "Cannot read properties of undefined (reading 'trim')")
  | Some raw =>
      let text := trim raw in
      match querySelector anyDetailsSelector item with
      | None => Normal st
      | Some link =>
          let href := hrefOf link in
          let a := secondaryRecord text link in
          if negb (bool_decide (href ∈ seen)) && negb (shouldSkip (title a) text)
          then Normal (assignments ++ [a], {[ href ]} ∪ seen)
          else Normal st
      end
  end.

Fixpoint scanItems (items : list Node) (st : ScanState) : Completion ScanState :=
  match items with
  | [] => Normal st
  | item :: rest =>
      match scanItem st item with
      | Normal st' => scanItems rest st'
      | Throw e => Throw e
      end
  end.

Definition secondaryPass (doc : Element) (st : ScanState) : Completion ScanState :=
  scanItems (querySelectorAll cardSelector doc) st.

(** The extraction proper (after the settle delay): the primary pass, and
    the secondary one when the first left [assignments] empty. *)
Definition extract (doc : Element) : Completion (list Assignment) :=
  let st := primaryPass doc in
  if length (fst st) =? 0 then
    match secondaryPass doc st with
    | Normal st' => Normal (fst st')
    | Throw e => Throw e
    end
  else Normal (fst st).

(** ** JSON values, as [resp.json()] returns them *)

Module JSValue.

Inductive JSON : Type :=
| JNull
| JBool (b : bool)
| JNum (q : Q)
| JStr (s : string)
| JArr (items : list JSON)
| JObj (fields : list (string * JSON)).

(** Truthiness of a possibly undefined value. *)
Definition truthy (v : option JSON) : bool :=
  match v with
  | None | Some JNull => false
  | Some (JBool b) => b
  | Some (JNum q) => negb (Qeq_bool q 0)
  | Some (JStr s) => negb (isEmpty s)
  | Some (JArr _) | Some (JObj _) => true
  end.

(** [v?.key], for a key that is no built-in property of strings, arrays
    or numbers (the keys read by the client are of that kind). *)
Definition member (v : option JSON) (key : string) : option JSON :=
  match v with
  | Some (JObj fields) => assoc key fields
  | _ => None
  end.

(** [v?.[0]]. *)
Definition first (v : option JSON) : option JSON :=
  match v with
  | Some (JArr (x :: _)) => Some x
  | Some (JStr (String c _)) => Some (JStr (String c EmptyString))
  | Some (JObj fields) => assoc "0" fields
  | _ => None
  end.

(** [a === b] against a string literal. *)
Definition strictEqStr (v : JSON) (lit : string) : bool :=
  match v with JStr s => String.eqb s lit | _ => false end.

End JSValue.
Import JSValue.

(** ** The browser *)

Record Request : Type := mkRequest {
  reqUrl : string;
  reqHeaders : list (string * string);
  reqBody : JSON                     (* the object given to JSON.stringify *)
}.

(** What a [fetch] comes to: a rejection, or a response with its [ok] flag
    and the value [resp.json()] resolves to ([None]: the body is not JSON). *)
Inductive FetchResult : Type :=
| NetworkFailure (msg : string)
| Response (ok : bool) (body : option JSON).

Inductive Event : Type :=
| PanelCreated
| Status (msg : string)              (* #sf-status textContent *)
| Result (html : string)             (* appended to #sf-results *)
| Console (line : string)
| Fetch (req : Request)
| Sleep (ms : nat)
| Navigate (href : string).

Record World : Type := mkWorld {
  location : string;                               (* window.location.href *)
  document : Element;
  globals : list (string * JSON);                  (* properties of window *)
  network : list Event -> Request -> FetchResult;  (* may depend on the past *)
  sfLog : option (list string);                    (* window._sfLog *)
  events : list Event                              (* oldest first *)
}.

Definition M (A : Type) : Type := World -> Completion A * World.

Definition ret {A : Type} (a : A) : M A := fun w => (Normal a, w).

Definition bind {A B : Type} (c : M A) (k : A -> M B) : M B :=
  fun w => match c w with
           | (Normal a, w') => k a w'
           | (Throw e, w') => (Throw e, w')
           end.

Definition throw {A : Type} (e : JSError) : M A := fun w => (Throw e, w).

Definition tryCatch {A : Type} (c : M A) (handler : JSError -> M A) : M A :=
  fun w => match c w with
           | (Normal a, w') => (Normal a, w')
           | (Throw e, w') => handler e w'
           end.

Declare Scope js_scope.
Delimit Scope js_scope with js.
Notation "x <- c ;; k" := (bind c (fun x => k))
  (at level 100, c at next level, right associativity) : js_scope.
Notation "c ;; k" := (bind c (fun _ => k))
  (at level 100, right associativity) : js_scope.
Local Open Scope js_scope.

Definition emit (e : Event) : M unit :=
  fun w => (Normal tt,
            mkWorld (location w) (document w) (globals w) (network w) (sfLog w)
                    (events w ++ [e])).

Definition pushLog (msg : string) : M unit :=
  fun w => (Normal tt,
            mkWorld (location w) (document w) (globals w) (network w)
                    (Some (match sfLog w with Some l => l | None => [] end ++ [msg]))
                    (events w)).

Definition log (msg : string) : M unit :=
  emit (Console ("[StudyFlow] " +:+ msg));; pushLog msg.

Definition createPanel : M unit := emit PanelCreated.

Definition setStatus (msg : string) : M unit := emit (Status msg);; log msg.

Definition addResult (html : string) : M unit := emit (Result html).

Definition sleep (ms : nat) : M unit := emit (Sleep ms).

Definition fetch (req : Request) : M (bool * option JSON) :=
  fun w =>
    let answer := network w (events w) req in
    match emit (Fetch req) w with
    | (_, w') =>
        match answer with
        | NetworkFailure msg => (Throw (mkError "TypeError" msg), w')
        | Response ok body => (Normal (ok, body), w')
        end
    end.

(** [await resp.json()] *)
Definition json (body : option JSON) : M JSON :=
  match body with
  | Some data => ret data
  | None => throw (mkError "SyntaxError" "Unexpected token in JSON")
  end.

(** A free identifier that the script does not declare resolves on the
    global object, and raises a ReferenceError when it is not there. *)
Definition resolveGlobal (name : string) : M JSON :=
  fun w => match assoc name (globals w) with
           | Some v => (Normal v, w)
           | None => (Throw (mkError "ReferenceError" (name +:+ " is not defined")), w)
           end.

(** ** Generation client *)

Record Config : Type := mkConfig {
  API_KEY : string;
  API_MODE : string
}.

Definition GEMINI_URL (cfg : Config) : string :=
  "https://generativelanguage.googleapis.com/v1beta/models/gemini-2.0-flash:generateContent?key="
  +:+ API_KEY cfg.

Definition GEMINI_FALLBACK (cfg : Config) : string :=
  "https://generativelanguage.googleapis.com/v1beta/models/gemma-3-1b-it:generateContent?key="
  +:+ API_KEY cfg.

Definition OPENROUTER_URL : string := "https://openrouter.ai/api/v1/chat/completions".

Definition OPENROUTER_MODELS : list string :=
  [ "google/gemini-2.0-flash-exp:free"; "google/gemma-3-1b-it:free" ].

Definition geminiRequest (endpoint prompt : string) : Request :=
  mkRequest endpoint
    [ ("Content-Type", "application/json") ]
    (JObj [ ("contents", JArr [ JObj [ ("parts", JArr [ JObj [ ("text", JStr prompt) ] ]) ] ]);
            ("generationConfig",
             JObj [ ("temperature", JNum (7 # 10)); ("maxOutputTokens", JNum (2048 # 1)) ]) ]).

Definition openRouterRequest (cfg : Config) (model prompt : string) : Request :=
  mkRequest OPENROUTER_URL
    [ ("Content-Type", "application/json");
      ("Authorization", "Bearer " +:+ API_KEY cfg);
      ("HTTP-Referer", "https://classroom.google.com") ]
    (JObj [ ("model", JStr model);
            ("messages", JArr [ JObj [ ("role", JStr "user"); ("content", JStr prompt) ] ]);
            ("temperature", JNum (7 # 10));
            ("max_tokens", JNum (2048 # 1)) ]).

(** [data?.candidates?.[0]?.content?.parts?.[0]?.text] *)
Definition geminiText (data : JSON) : option JSON :=
  member (first (member (member (first (member (Some data) "candidates")) "content") "parts")) "text".

(** [data?.choices?.[0]?.message?.content] *)
Definition openRouterText (data : JSON) : option JSON :=
  member (member (first (member (Some data) "choices")) "message") "content".

(** [text.trim()] on whatever [text] is: only a string has the method. *)
Definition callTrim (v : option JSON) : M string :=
  match v with
  | Some (JStr s) => ret (trim s)
  | _ => throw (mkError "TypeError" "text.trim is not a function")
  end.

(** The part of the loop body after the [fetch]: [Some t] is [return t],
    [None] falls through to the next endpoint. *)
Definition readResponse (textOf : JSON -> option JSON) (resp : bool * option JSON)
  : M (option string) :=
  if negb (fst resp) then ret None
  else
    data <- json (snd resp);;
    let text := textOf data in
    if truthy text then
      t <- callTrim text;;
      if negb (isEmpty t) then (t' <- callTrim text;; ret (Some t')) else ret None
    else ret None.

(** The [try] block of the loop body, for the request of one endpoint. *)
Definition attemptEndpoint (textOf : JSON -> option JSON) (req : Request)
  : M (option string) :=
  resp <- fetch req;;
  readResponse textOf resp.

(** The loop over the endpoints: each one is tried in its own [try] block,
    an exception is logged under [label] and the loop goes on, and [null]
    is returned when the list is exhausted. *)
Fixpoint tryEach (textOf : JSON -> option JSON) (label : string)
         (reqs : list Request) : M (option string) :=
  match reqs with
  | [] => ret None
  | req :: rest =>
      r <- tryCatch (attemptEndpoint textOf req)
                    (fun e => log (label +:+ " error: " +:+ message e);; ret None);;
      match r with
      | Some t => ret (Some t)
      | None => tryEach textOf label rest
      end
  end.

Definition callGeminiDirect (cfg : Config) (prompt : string) : M (option string) :=
  tryEach geminiText "Gemini"
          (map (fun endpoint => geminiRequest endpoint prompt)
               [ GEMINI_URL cfg; GEMINI_FALLBACK cfg ]).

Definition callOpenRouter (cfg : Config) (prompt : string) : M (option string) :=
  tryEach openRouterText "OpenRouter"
          (map (fun model => openRouterRequest cfg model prompt) OPENROUTER_MODELS).

Definition callLLM (cfg : Config) (prompt : string) : M (option string) :=
  if String.eqb (API_MODE cfg) "openrouter" then callOpenRouter cfg prompt
  else callGeminiDirect cfg prompt.

(** ** Draft generation *)

Definition STYLE_EXAMPLES : list string :=
  [ "Hope, because it keeps going and is the reason why I continue to do the stuff that I do. Honor because I was born with respect to my duty and my loved ones. Integrity, because I was raised to not cheat people.";
    "With many of my business endeavours, I often had to choose with being honest with my clients about the progress of the work, and sometimes I would have a lot of other stuff to focus on too, so sometimes progress gets delayed, but I would try to remain honest with them about it, and then quickly finish it." ].

Definition promptFor (a : Assignment) : string :=
  "You are writing a homework response in a student's personal voice.

CRITICAL RULES:
- Match this student's writing style: casual, simple punctuation (periods/commas), no semicolons or em dashes
- NEVER sound robotic, formal, or AI-generated
- Keep wording natural with normal imperfections
- Answer accurately and completely
- If there are numbered questions, answer each one separately with its number
- Put each answer in its RESPECTIVE position
- Keep it the right length (not too long, not too short)

STUDENT STYLE EXAMPLES:
"
    +:+ join (nl +:+ nl) STYLE_EXAMPLES
    +:+ "

ASSIGNMENT:
Title: "
    +:+ title a
    +:+ "
Course: "
    +:+ course a
    +:+ "
Instructions: "
    +:+ substring0 1500 (text a)
    +:+ "

OUTPUT RULES:
- If there are numbered questions, format as " +:+ dq +:+ "1. answer\n2. answer" +:+ dq +:+ " etc.
- Return plain text only, no markdown, no bold, no headers
- No placeholder text like <text> or [insert]

Write the response now. Output ONLY the answer text.".

Definition generateDraft (cfg : Config) (a : Assignment) : M (option string) :=
  callLLM cfg (promptFor a).

(** ** Orchestration *)

Definition startingStatus (N i : nat) (a : Assignment) : string :=
  "[" +:+ ofNat (i + 1) +:+ "/" +:+ ofNat N +:+ "] Drafting: " +:+ title a.

Definition headerHtml (i : nat) (a : Assignment) : string :=
  "<div style=" +:+ dq +:+ "border-bottom:1px solid #333;padding:8px 0;" +:+ dq +:+ ">
        <b style=" +:+ dq +:+ "color:#4fc3f7;" +:+ dq +:+ ">"
    +:+ ofNat (i + 1)
    +:+ ". "
    +:+ title a
    +:+ "</b><br>
        <span style=" +:+ dq +:+ "color:#888;" +:+ dq +:+ ">"
    +:+ course a
    +:+ "</span>".

Definition successHtml (a : Assignment) (draft : string) : string :=
  "<div style=" +:+ dq +:+ "background:#0d1117;padding:8px;border-radius:6px;margin:4px 0;white-space:pre-wrap;font-size:12px;max-height:200px;overflow-y:auto;" +:+ dq +:+ ">"
    +:+ draft
    +:+ "</div>
          <div style=" +:+ dq +:+ "margin:4px 0;" +:+ dq +:+ ">
            <button onclick=" +:+ dq +:+ "navigator.clipboard.writeText(this.dataset.draft).then(()=>this.textContent='Copied!')" +:+ dq +:+ " 
              data-draft=" +:+ dq
    +:+ escapeQuotes draft
    +:+ dq +:+ " 
              style=" +:+ dq +:+ "background:#1976d2;color:#fff;border:none;padding:4px 12px;border-radius:4px;cursor:pointer;font-size:12px;" +:+ dq +:+ ">
              Copy Draft
            </button>
            <a href=" +:+ dq
    +:+ url a
    +:+ dq +:+ " target=" +:+ dq +:+ "_blank" +:+ dq +:+ " style=" +:+ dq +:+ "color:#4fc3f7;font-size:12px;margin-left:8px;" +:+ dq +:+ ">Open Assignment</a>
          </div>
        </div>".

Definition failureHtml : string :=
  "<span style=" +:+ dq +:+ "color:#f44;" +:+ dq +:+ ">Draft failed - API error</span></div>".

(** The block that reports the outcome of one record; [if (draft)] holds
    for a non-empty string only. *)
Definition reportOutcome (a : Assignment) (draft : option string) : M unit :=
  if truthy (option_map JStr draft) then
    let d := match draft with Some d => d | None => EmptyString end in
    addResult (successHtml a d);;
    log ("Draft generated for: " +:+ title a +:+ " (" +:+ ofNat (String.length d) +:+ " chars)")
  else addResult failureHtml.

(** The body of the [for] loop at index [i] of [N] records. *)
Definition draftOne (cfg : Config) (N i : nat) (a : Assignment) : M unit :=
  setStatus (startingStatus N i a);;
  addResult (headerHtml i a);;
  draft <- generateDraft cfg a;;
  reportOutcome a draft;;
  if i <? N - 1 then sleep 2000 else ret tt.

(** [for (let i = ...; i < assignments.length; i++)], from index [i] on. *)
Fixpoint draftLoop (cfg : Config) (N i : nat) (rest : list Assignment) : M unit :=
  match rest with
  | [] => ret tt
  | a :: rest' => draftOne cfg N i a;; draftLoop cfg N (S i) rest'
  end.

Definition TODO_URL : string := "https://classroom.google.com/u/0/a/not-turned-in/all".

(** [None] is the [null] returned when the page is not the to-do view. *)
Definition scanLiveTodo : M (option (list Assignment)) :=
  setStatus "Scanning To-do page...";;
  fun w =>
    if negb (includes (location w) "/a/not-turned-in") && negb (includes (location w) "/a/")
    then (emit (Navigate TODO_URL);; ret None) w
    else (sleep 3000;;
          fun w' => match extract (document w') with
                    | Normal l => (Normal (Some l), w')
                    | Throw e => (Throw e, w')
                    end) w.

Definition KEY_PLACEHOLDER : string := "%%GEMINI_KEY%%".

Definition noneFoundHint : string :=
  "<span style=" +:+ dq +:+ "color:#ff0;" +:+ dq +:+ ">Try clicking the " +:+ dq +:+ "Assigned" +:+ dq +:+ " or " +:+ dq +:+ "Missing" +:+ dq +:+ " tab first, then click the bookmarklet again.</span>".

Definition doneHint : string :=
  "<hr style=" +:+ dq +:+ "border-color:#333;" +:+ dq +:+ "><span style=" +:+ dq +:+ "color:#0f0;" +:+ dq +:+ ">Click " +:+ dq +:+ "Copy Draft" +:+ dq +:+ " then open the assignment to paste.</span>".

(** Everything in the [try] block after the key check. *)
Definition pipeline (cfg : Config) : M unit :=
  found <- scanLiveTodo;;
  match found with
  | None => setStatus "Redirecting to To-do page... Click bookmarklet again after page loads."
  | Some assignments =>
      if length assignments =? 0 then
        setStatus "No assignments found. Make sure you're on the To-do page.";;
        addResult noneFoundHint
      else
        setStatus ("Found " +:+ ofNat (length assignments) +:+ " assignment(s). Generating drafts...");;
        draftLoop cfg (length assignments) 0 assignments;;
        setStatus ("Done! " +:+ ofNat (length assignments) +:+ " assignment(s) processed.");;
        addResult doneHint
  end.

(** The key check reads the identifier [GEMINI_KEY]; the script declares
    [API_KEY] only, so the name resolves on the global object. *)
Definition main (cfg : Config) : M unit :=
  tryCatch
    (createPanel;;
     key <- resolveGlobal "GEMINI_KEY";;
     if negb (truthy (Some key)) || strictEqStr key KEY_PLACEHOLDER then
       setStatus "ERROR: No API key. Re-create bookmarklet with your key."
     else pipeline cfg)
    (fun err => setStatus ("Error: " +:+ message err);; log ("Fatal: " +:+ stack err)).

(** The world a run starts in. *)
Definition initialWorld (href : string) (doc : Element) (globals : list (string * JSON))
           (net : list Event -> Request -> FetchResult) : World :=
  mkWorld href doc globals net None [].

Definition run (cfg : Config) (w : World) : list Event := events (snd (main cfg w)).

(** * Properties *)

(** ** Vocabulary of the statements *)

(** The three rules of the classification policy, as predicates on a title
    and a group label. *)
Definition excludedCourseRule (title course : string) : bool :=
  ruleCourse IGNORE_COURSES title course.

Definition excludedSubjectRule (title course : string) : bool :=
  fst (test APUSH_RE (combinedOf title course)).

Definition excludedTypeRule (title course : string) : bool :=
  ruleType IGNORE_TYPES title.

(** Short-circuit evaluation of a list of rules in the order given. *)
Definition firstMatch (rules : list (string -> string -> bool)) (title course : string) : bool :=
  existsb (fun rule => rule title course) rules.

(** [APUSH_RE] after any number of earlier uses: only [lastIndex] can differ. *)
Definition APUSH_RE_at (n : nat) : RegExp := setLastIndex n APUSH_RE.


(** The links the two passes look at, and their raw [href] keys. *)
Definition primaryLinks (doc : Element) : list Node :=
  querySelectorAll detailLinkSelector doc.

Definition cardItems (doc : Element) : list Node :=
  querySelectorAll cardSelector doc.

Definition linkOfItem (item : Node) : option Node :=
  querySelector anyDetailsSelector item.



(** A record of the secondary pass and the link it was made from. *)
Definition SecondaryFrom (items : list Node) (a : Assignment) (link : Node) : Prop :=
  exists item raw,
    In item items /\ innerText (element item) = Some raw
    /\ linkOfItem item = Some link /\ a = secondaryRecord (trim raw) link.

(** Where each record of an extraction comes from: record and source link,
    position by position. *)
Definition ProducedFrom (doc : Element) (a : Assignment) (link : Node) : Prop :=
  (In link (primaryLinks doc) /\ a = primaryRecord link)
  \/ SecondaryFrom (cardItems doc) a link.

(** The first line of a text whose trimmed length exceeds the threshold 3. *)
Definition firstNonTrivialLine (text : string) : option string :=
  find (fun l => 3 <? String.length (trim l)) (splitLines text).

(** Two links to one assignment, one relative and one absolute. *)
Definition duplicatePage : Element :=
  Elem "html" [] (Some EmptyString)
    [ Elem "ul" [] (Some EmptyString)
        [ Elem "li" [] (Some "Essay on rivers")
            [ Elem "a" [("href", "/c/1/a/2/details")] (Some "Essay on rivers") [] ];
          Elem "li" [] (Some "Essay on rivers, again")
            [ Elem "a" [("href", "https://classroom.google.com/c/1/a/2/details")]
                   (Some "Essay on rivers, again") [] ] ] ].

(** A card whose text has no line longer than three characters. *)
Definition shortLinesPage : Element :=
  Elem "html" [] (Some EmptyString)
    [ Elem "ul" [] (Some EmptyString)
        [ Elem "li" [] (Some ("ab" +:+ nl +:+ "cd"))
            [ Elem "a" [("href", "/c/1/a/2/details")] (Some "ab") [] ] ] ].

(** A page whose only detail link is filtered out by the primary pass, and
    whose cards are then scanned by the secondary pass: the first card holds
    that same link, the second one a link the primary selector did not see. *)
Definition filteredPage : Element :=
  Elem "html" [] (Some EmptyString)
    [ Elem "div" [("class", "assignment-card")] (Some "Essay on rivers")
        [ Elem "li" [] (Some "APUSH DBQ essay")
            [ Elem "a" [("href", "/c/1/a/2/details")] (Some "APUSH DBQ essay") [] ] ];
      Elem "div" [("data-stream-item-id", "77")] (Some "Read chapter four")
        [ Elem "a" [("href", "/x/details")] (Some "Read") [] ] ].

(** The record that the secondary pass makes on [filteredPage]. *)
Definition chapterFourRecord : Assignment :=
  mkAssignment "Read chapter four" EmptyString
               "https://classroom.google.com/x/details" "Read chapter four".

(** The world [w] after more events and with another log array: nothing
    else in a world ever changes. *)
Definition extend (w : World) (sf : option (list string)) (ev : list Event) : World :=
  mkWorld (location w) (document w) (globals w) (network w) sf (events w ++ ev).

Definition logAfter (sf : option (list string)) (lines : list string) : option (list string) :=
  match lines with
  | [] => sf
  | _ => Some (match sf with Some l => l | None => [] end ++ lines)
  end.

Definition consoleLine (msg : string) : Event := Console ("[StudyFlow] " +:+ msg).

(** The adapter and the requests of the configured provider, in the order
    in which [callLLM] tries them. *)
Definition textOf (cfg : Config) : JSON -> option JSON :=
  if String.eqb (API_MODE cfg) "openrouter" then openRouterText else geminiText.

Definition providerLabel (cfg : Config) : string :=
  if String.eqb (API_MODE cfg) "openrouter" then "OpenRouter" else "Gemini".

Definition endpointRequests (cfg : Config) (prompt : string) : list Request :=
  if String.eqb (API_MODE cfg) "openrouter"
  then map (fun model => openRouterRequest cfg model prompt) OPENROUTER_MODELS
  else map (fun endpoint => geminiRequest endpoint prompt)
           [ GEMINI_URL cfg; GEMINI_FALLBACK cfg ].

(** What one [try] block comes to, given the answer of the network. *)
Definition attemptResult (textOf : JSON -> option JSON) (answer : FetchResult)
  : Completion (option string) :=
  match answer with
  | NetworkFailure msg => Throw (mkError "TypeError" msg)
  | Response false _ => Normal None
  | Response true None => Throw (mkError "SyntaxError" "Unexpected token in JSON")
  | Response true (Some data) =>
      match textOf data with
      | Some (JStr s) =>
          if isEmpty s then Normal None
          else if isEmpty (trim s) then Normal None
               else Normal (Some (trim s))
      | v => if truthy v then Throw (mkError "TypeError" "text.trim is not a function")
             else Normal None
      end
  end.

Definition resultText (c : Completion (option string)) : option string :=
  match c with Normal r => r | Throw _ => None end.

Definition errorLines (label : string) (c : Completion (option string)) : list string :=
  match c with
  | Throw e => [label +:+ " error: " +:+ message e]
  | Normal _ => []
  end.

(** The ways an endpoint fails: the request is rejected, the status is not
    a success, or the text extracted from the body is absent, empty or
    white space only. *)
Inductive EndpointFails (textOf : JSON -> option JSON) : FetchResult -> Prop :=
| fails_network (msg : string) :
    EndpointFails textOf (NetworkFailure msg)
| fails_status (body : option JSON) :
    EndpointFails textOf (Response false body)
| fails_absent (data : JSON) :
    textOf data = None -> EndpointFails textOf (Response true (Some data))
| fails_blank (data : JSON) (s : string) :
    textOf data = Some (JStr s) -> trim s = EmptyString ->
    EndpointFails textOf (Response true (Some data)).

(** Events that the operator's panel shows or that pace the run. *)
Definition isPipelineEvent (e : Event) : bool :=
  match e with
  | Status _ | Result _ | Sleep _ => true
  | _ => false
  end.

Definition pipelineEvents (tr : list Event) : list Event := List.filter isPipelineEvent tr.

Definition statusesOf (tr : list Event) : list string :=
  flat_map (fun e => match e with Status m => [m] | _ => [] end) tr.

Definition resultsOf (tr : list Event) : list string :=
  flat_map (fun e => match e with Result h => [h] | _ => [] end) tr.


Definition fetchesOf (tr : list Event) : list Request :=
  flat_map (fun e => match e with Fetch r => [r] | _ => [] end) tr.

(** Everything the operator can observe of a run: all events but the
    requests themselves. *)
Definition observable (tr : list Event) : list Event :=
  List.filter (fun e => match e with Fetch _ => false | _ => true end) tr.

(** The outcome block of a record, and the events of one loop iteration. *)
Definition outcomeHtml (a : Assignment) (draft : option string) : string :=
  match draft with
  | Some d => if isEmpty d then failureHtml else successHtml a d
  | None => failureHtml
  end.

Definition recordBlock (N : nat) (entry : nat * Assignment * option string) : list Event :=
  let '(i, a, draft) := entry in
  [ Status (startingStatus N i a); Result (headerHtml i a); Result (outcomeHtml a draft) ]
  ++ (if i <? N - 1 then [Sleep 2000] else []).

(** A Gemini configuration, response bodies of the Gemini shape, and
    networks in which the first endpoint answers, the first endpoint is
    refused and the fallback answers, or nothing answers. *)
Definition geminiConfig : Config := mkConfig "key-123" "gemini".

Definition geminiBody (t : string) : JSON :=
  JObj [ ("candidates",
          JArr [ JObj [ ("content", JObj [ ("parts", JArr [ JObj [ ("text", JStr t) ] ]) ]) ] ]) ].

Definition primaryAnswers (t : string) : list Event -> Request -> FetchResult :=
  fun _ _ => Response true (Some (geminiBody t)).

Definition fallbackAnswers (t : string) : list Event -> Request -> FetchResult :=
  fun _ req =>
    if String.eqb (reqUrl req) (GEMINI_URL geminiConfig)
    then Response false None
    else Response true (Some (geminiBody t)).

Definition nothingAnswers : list Event -> Request -> FetchResult :=
  fun _ _ => Response false None.

(** A run started on the to-do page [doc], with the given global variables
    and network. *)
Definition todoWorld (doc : Element) (globals : list (string * JSON))
           (net : list Event -> Request -> FetchResult) : World :=
  initialWorld TODO_URL doc globals net.

(** The fallback scenario on one record: the world, and the two requests. *)
Definition fallbackWorld : World := todoWorld filteredPage [] (fallbackAnswers " hi ").

Definition firstRequest : Request :=
  geminiRequest (GEMINI_URL geminiConfig) (promptFor chapterFourRecord).

Definition secondRequest : Request :=
  geminiRequest (GEMINI_FALLBACK geminiConfig) (promptFor chapterFourRecord).



(** ** Vocabulary of the further properties *)

(** The character before a position, lowered with the input. *)
Definition lowerPrev (prev : option ascii) : option ascii := option_map lowerChar prev.

(** Two continuations that agree up to the letter case of the input. *)
Definition CaseBlind (k k' : Cont) : Prop :=
  forall (p : option ascii) (s : string),
    k' (lowerPrev p) (toLowerCase s) = option_map toLowerCase (k p s).

(** The last character of [pre], or [prev] when [pre] is empty. *)
Fixpoint lastChar (prev : option ascii) (pre : string) : option ascii :=
  match pre with
  | EmptyString => prev
  | String c r => lastChar (Some c) r
  end.

(** A card with a title line and a class-period line, and its link with
    the ancestors it has on the page. *)
Definition periodAnchor : Element :=
  Elem "a" [("href", "/c/1/a/2/details")] (Some "Essay on rivers") [].

Definition periodCard : Element :=
  Elem "li" [] (Some ("Essay on rivers" +:+ nl +:+ "Geography, Period 3")) [ periodAnchor ].

Definition periodList : Element := Elem "ul" [] (Some EmptyString) [ periodCard ].

Definition periodPage : Element := Elem "html" [] (Some EmptyString) [ periodList ].

Definition periodLink : Node := (periodAnchor, [ periodCard; periodList; periodPage ]).

(** The console events of a trace. *)
Definition consoleOf (tr : list Event) : list Event :=
  List.filter (fun e => match e with Console _ => true | _ => false end) tr.

(** [w'] is [w] after a run that only appended events and pushed onto the
    log array exactly the messages it printed on the console, in order. *)
Definition Appends (w w' : World) : Prop :=
  exists (msgs : list string) (ev : list Event),
    w' = extend w (logAfter (sfLog w) msgs) ev
    /\ consoleOf ev = map consoleLine msgs.

Definition Appending {A : Type} (c : M A) : Prop := forall w, Appends w (snd (c w)).

(** The ways the [try] block of an endpoint raises: the request is
    rejected, the body is not JSON, or the extracted text is a truthy value
    that is not a string. *)
Inductive EndpointThrows (textOf : JSON -> option JSON) : FetchResult -> Prop :=
| throws_network (msg : string) :
    EndpointThrows textOf (NetworkFailure msg)
| throws_not_json :
    EndpointThrows textOf (Response true None)
| throws_not_string (data v : JSON) :
    textOf data = Some v -> truthy (Some v) = true ->
    (forall s, v <> JStr s) ->
    EndpointThrows textOf (Response true (Some data)).



(** A body of the Gemini shape whose text is a number. *)
Definition numberBody : JSON :=
  JObj [ ("candidates",
          JArr [ JObj [ ("content",
                         JObj [ ("parts", JArr [ JObj [ ("text", JNum (5 # 1)) ] ]) ]) ] ]) ].

Definition brokenAnswers : list Event -> Request -> FetchResult :=
  fun _ req =>
    if String.eqb (reqUrl req) (GEMINI_URL geminiConfig)
    then NetworkFailure "Failed to fetch"
    else Response true (Some numberBody).


(** The first link of the primary selector that carries the raw href [h]. *)
Definition firstLinkWith (h : string) (links : list Node) : option Node :=
  find (fun l => String.eqb (hrefOf l) h) links.

(** A page whose only card is an element without [innerText]. *)
Definition iconPage : Element :=
  Elem "html" [] (Some EmptyString)
    [ Elem "svg" [("class", "assignment-icon")] None [] ].
(** ** Classification rules *)

Lemma test_not_global (re : RegExp) (s : string) :
  global re = false ->
  test re s = (match search (ignoreCase re) (pattern re) None s with
               | Some _ => true
               | None => false
               end, re).
Proof.
  intros Hg. unfold test. rewrite Hg.
  destruct (search (ignoreCase re) (pattern re) None s); reflexivity.
Qed.

Lemma test_APUSH_at (n : nat) (s : string) :
  test (APUSH_RE_at n) s = (fst (test APUSH_RE s), APUSH_RE_at n).
Proof.
  rewrite (test_not_global (APUSH_RE_at n)) by reflexivity.
  rewrite (test_not_global APUSH_RE) by reflexivity.
  reflexivity.
Qed.

Lemma shouldSkip_disjunction (title course : string) :
  shouldSkip title course =
  excludedCourseRule title course || excludedSubjectRule title course
  || excludedTypeRule title course.
Proof.
  unfold shouldSkip, shouldSkipState, shouldSkipWith,
    excludedCourseRule, excludedSubjectRule, excludedTypeRule.
  destruct (ruleCourse IGNORE_COURSES title course); [reflexivity|].
  destruct (test APUSH_RE (combinedOf title course)) as [hit re'].
  destruct hit; [reflexivity|].
  destruct (ruleType IGNORE_TYPES title); reflexivity.
Qed.

(** The regular expression shared between calls comes back unchanged. *)
Lemma shouldSkipState_pure (n : nat) (title course : string) :
  shouldSkipState (APUSH_RE_at n) title course = (shouldSkip title course, APUSH_RE_at n).
Proof.
  unfold shouldSkip, shouldSkipState, shouldSkipWith.
  destruct (ruleCourse IGNORE_COURSES title course); [reflexivity|].
  rewrite test_APUSH_at.
  destruct (test APUSH_RE (combinedOf title course)) as [hit re'].
  destruct hit; [reflexivity|].
  destruct (ruleType IGNORE_TYPES title); reflexivity.
Qed.

Lemma firstMatch_Permutation (rules rules' : list (string -> string -> bool))
      (title course : string) :
  Permutation rules rules' -> firstMatch rules title course = firstMatch rules' title course.
Proof.
  unfold firstMatch.
  induction 1 as [|r l l' _ IH|r r' l|l l' l'' _ IH1 _ IH2]; simpl.
  - reflexivity.
  - now rewrite IH.
  - destruct (r title course), (r' title course); reflexivity.
  - now rewrite IH1.
Qed.

(** C7: [shouldSkip] on the title "AP U.S. History DBQ #3" with an empty
    group is true; the excluded-subject pattern matches on its own (the
    course rule does not fire), the assignment-type rule matches too, and
    with the type rule switched off (no tokens) the answer is still true. *)
Theorem shouldSkip_apush_dbq :
  shouldSkip "AP U.S. History DBQ #3" EmptyString = true
  /\ excludedCourseRule "AP U.S. History DBQ #3" EmptyString = false
  /\ excludedSubjectRule "AP U.S. History DBQ #3" EmptyString = true
  /\ excludedTypeRule "AP U.S. History DBQ #3" EmptyString = true
  /\ fst (shouldSkipWith IGNORE_COURSES [] APUSH_RE "AP U.S. History DBQ #3" EmptyString) = true.
Proof. repeat split; vm_compute; reflexivity. Qed.

(** C9: [shouldSkip] is deterministic: run twice in a row on the same title
    and group, whatever the earlier use of the shared regular expression,
    it gives the same boolean and leaves that object as it was; and the
    boolean is the disjunction of the three rules, so evaluating the rules
    with short-circuit in any permuted order gives the same answer. *)
Theorem shouldSkip_deterministic_order_independent
        (n : nat) (title course : string) (rules : list (string -> string -> bool)) :
  Permutation rules [excludedCourseRule; excludedSubjectRule; excludedTypeRule] ->
  (let first := shouldSkipState (APUSH_RE_at n) title course in
   let second := shouldSkipState (snd first) title course in
   fst first = fst second /\ snd second = APUSH_RE_at n /\ fst first = shouldSkip title course)
  /\ shouldSkip title course =
     excludedCourseRule title course || excludedSubjectRule title course
     || excludedTypeRule title course
  /\ firstMatch rules title course = shouldSkip title course.
Proof.
  intros Hperm. split; [|split].
  - cbv zeta. rewrite !shouldSkipState_pure. cbn [fst snd].
    rewrite shouldSkipState_pure. auto.
  - apply shouldSkip_disjunction.
  - rewrite (firstMatch_Permutation _ _ _ _ Hperm), shouldSkip_disjunction.
    unfold firstMatch. simpl. now rewrite orb_false_r, orb_assoc.
Qed.

Lemma shouldSkip_deterministic_order_independent_witness :
  Permutation [excludedTypeRule; excludedCourseRule; excludedSubjectRule]
              [excludedCourseRule; excludedSubjectRule; excludedTypeRule]
  /\ firstMatch [excludedTypeRule; excludedCourseRule; excludedSubjectRule]
                "Unit 4 MCQ practice" "Biology, Period 2"
     = shouldSkip "Unit 4 MCQ practice" "Biology, Period 2".
Proof.
  assert (Hp : Permutation [excludedTypeRule; excludedCourseRule; excludedSubjectRule]
                           [excludedCourseRule; excludedSubjectRule; excludedTypeRule]).
  { eapply perm_trans; [apply perm_swap|]. apply perm_skip. apply perm_swap. }
  split; [exact Hp|].
  apply (shouldSkip_deterministic_order_independent
           7 "Unit 4 MCQ practice" "Biology, Period 2" _ Hp).
Defined.

(** ** Record extractor *)

Lemma scanLink_cases (acc : list Assignment) (seen : gset string) (link : Node) :
  (scanLink (acc, seen) link = (acc, seen)
   /\ (hrefOf link ∈ seen \/ includes (hrefOf link) "not-turned-in" = true))
  \/ ((hrefOf link ∉ seen) /\ includes (hrefOf link) "not-turned-in" = false
      /\ (scanLink (acc, seen) link = (acc ++ [primaryRecord link], {[ hrefOf link ]} ∪ seen)
          \/ (scanLink (acc, seen) link = (acc, {[ hrefOf link ]} ∪ seen)
              /\ shouldSkip (title (primaryRecord link)) (course (primaryRecord link)) = true))).
Proof.
  unfold scanLink.
  destruct (bool_decide (hrefOf link ∈ seen)) eqn:Hseen.
  - left. apply bool_decide_eq_true in Hseen. simpl. auto.
  - apply bool_decide_eq_false in Hseen. simpl.
    destruct (includes (hrefOf link) "not-turned-in") eqn:Hntl.
    + left. auto.
    + right. split; [exact Hseen|]. split; [reflexivity|].
      destruct (shouldSkip _ _); simpl; auto.
Qed.

Lemma scanLinks_inv (links : list Node) :
  forall (acc : list Assignment) (seen : gset string),
  exists srcs : list Node,
    fst (fold_left scanLink links (acc, seen)) = acc ++ map primaryRecord srcs
    /\ incl srcs links
    /\ NoDup (map hrefOf srcs)
    /\ (forall s, In s srcs -> hrefOf s ∉ seen)
    /\ seen ⊆ snd (fold_left scanLink links (acc, seen))
    /\ (forall l, In l links -> includes (hrefOf l) "not-turned-in" = false ->
                  hrefOf l ∈ snd (fold_left scanLink links (acc, seen))).
Proof.
  induction links as [|link links IH]; intros acc seen.
  - exists []. simpl. rewrite app_nil_r.
    repeat split; auto using incl_nil_l; try easy. constructor.
  - cbn [fold_left].
    destruct (scanLink_cases acc seen link)
      as [[Heq Hwhy]|(Hfresh & Hntl & [Heq|[Heq _]])]; rewrite Heq.
    + destruct (IH acc seen) as (srcs & Hacc & Hincl & Hnd & Hout & Hsub & Hall).
      exists srcs. repeat split; auto.
      * now apply incl_tl.
      * intros l [<-|Hl] Hl'; [|now apply Hall].
        destruct Hwhy as [Hin|Hin]; [now apply Hsub|congruence].
    + destruct (IH (acc ++ [primaryRecord link]) ({[ hrefOf link ]} ∪ seen))
        as (srcs & Hacc & Hincl & Hnd & Hout & Hsub & Hall).
      exists (link :: srcs). repeat split.
      * rewrite Hacc, <- app_assoc. reflexivity.
      * intros s [<-|Hs]; [now left|right; now apply Hincl].
      * simpl. constructor; [|exact Hnd].
        intros Hin. apply list_elem_of_In, in_map_iff in Hin as (s & Hs & Hin).
        apply (Hout s Hin). rewrite Hs. set_solver.
      * intros s [<-|Hs]; [exact Hfresh|].
        intros Hin. apply (Hout s Hs). set_solver.
      * set_solver.
      * intros l [<-|Hl] Hl'; [|now apply Hall]. apply Hsub. set_solver.
    + destruct (IH acc ({[ hrefOf link ]} ∪ seen))
        as (srcs & Hacc & Hincl & Hnd & Hout & Hsub & Hall).
      exists srcs. repeat split; auto.
      * now apply incl_tl.
      * intros s Hs Hin. apply (Hout s Hs). set_solver.
      * set_solver.
      * intros l [<-|Hl] Hl'; [|now apply Hall]. apply Hsub. set_solver.
Qed.

Lemma scanItem_cases (acc : list Assignment) (seen : gset string) (item : Node)
      (st' : ScanState) :
  scanItem (acc, seen) item = Normal st' ->
  st' = (acc, seen)
  \/ exists raw link,
       innerText (element item) = Some raw /\ linkOfItem item = Some link
       /\ (hrefOf link ∉ seen)
       /\ st' = (acc ++ [secondaryRecord (trim raw) link], {[ hrefOf link ]} ∪ seen).
Proof.
  unfold scanItem, linkOfItem.
  destruct (innerText (element item)) as [raw|]; [|discriminate].
  destruct (querySelector anyDetailsSelector item) as [link|].
  - destruct (bool_decide (hrefOf link ∈ seen)) eqn:Hseen; simpl.
    + intros [= <-]. now left.
    + apply bool_decide_eq_false in Hseen.
      destruct (shouldSkip _ _); simpl; intros [= <-]; [now left|].
      right. exists raw, link. auto.
  - intros [= <-]. now left.
Qed.

Lemma scanItems_inv (items : list Node) :
  forall (acc : list Assignment) (seen : gset string) (st' : ScanState),
  scanItems items (acc, seen) = Normal st' ->
  exists (recs : list Assignment) (srcs : list Node),
    fst st' = acc ++ recs
    /\ Forall2 (SecondaryFrom items) recs srcs
    /\ NoDup (map hrefOf srcs)
    /\ (forall s, In s srcs -> hrefOf s ∉ seen).
Proof.
  induction items as [|item items IH]; intros acc seen st'; cbn [scanItems].
  - intros [= <-]. exists [], []. simpl. rewrite app_nil_r.
    repeat split; auto; try easy. constructor.
  - destruct (scanItem (acc, seen) item) as [st1|e] eqn:Hstep; [|discriminate].
    intros Hrest.
    assert (Hweaken : forall recs srcs,
               Forall2 (SecondaryFrom items) recs srcs ->
               Forall2 (SecondaryFrom (item :: items)) recs srcs).
    { intros recs srcs HF. eapply Forall2_impl; [exact HF|].
      intros a l (it & raw & Hin & H1 & H2 & H3). exists it, raw. simpl. auto. }
    destruct (scanItem_cases _ _ _ _ Hstep) as [->|(raw & link & Htxt & Hlink & Hfresh & ->)].
    + destruct (IH _ _ _ Hrest) as (recs & srcs & Hacc & HF & Hnd & Hout).
      exists recs, srcs. auto.
    + destruct (IH _ _ _ Hrest) as (recs & srcs & Hacc & HF & Hnd & Hout).
      exists (secondaryRecord (trim raw) link :: recs), (link :: srcs). repeat split.
      * rewrite Hacc, <- app_assoc. reflexivity.
      * constructor; [|now apply Hweaken].
        exists item, raw. simpl. auto.
      * simpl. constructor; [|exact Hnd].
        intros Hin. apply list_elem_of_In, in_map_iff in Hin as (s & Hs & Hin).
        apply (Hout s Hin). rewrite Hs. set_solver.
      * intros s [<-|Hs]; [exact Hfresh|].
        intros Hin. apply (Hout s Hs). set_solver.
Qed.

(** Every extraction is made by one pass alone: either the primary pass
    kept something, or it kept nothing and the records are those of the
    secondary pass, whose links are new to the shared [seen] set. *)
Lemma extract_provenance (doc : Element) (result : list Assignment) :
  extract doc = Normal result ->
  (fst (primaryPass doc) <> []
   /\ exists srcs, result = map primaryRecord srcs
                   /\ incl srcs (primaryLinks doc) /\ NoDup (map hrefOf srcs))
  \/ (fst (primaryPass doc) = []
      /\ exists srcs, Forall2 (SecondaryFrom (cardItems doc)) result srcs
                      /\ NoDup (map hrefOf srcs)
                      /\ forall s, In s srcs -> hrefOf s ∉ snd (primaryPass doc)).
Proof.
  unfold extract. intros H.
  destruct (scanLinks_inv (primaryLinks doc) [] ∅)
    as (srcs & Hacc & Hincl & Hnd & _).
  change (fst (primaryPass doc) = map primaryRecord srcs) in Hacc.
  destruct (fst (primaryPass doc)) as [|a0 rest] eqn:Hfst; simpl in H.
  - right. split; [reflexivity|].
    destruct (secondaryPass doc (primaryPass doc)) as [st'|e] eqn:Hsec; [|discriminate].
    injection H as <-.
    unfold secondaryPass in Hsec.
    destruct (primaryPass doc) as [acc seen] eqn:Hpp. simpl in Hfst. subst acc.
    destruct (scanItems_inv _ _ _ _ Hsec) as (recs & srcs2 & Hacc2 & HF & Hnd2 & Hout).
    simpl in Hacc2. rewrite Hacc2. exists srcs2. auto.
  - left. split; [discriminate|]. injection H as <-.
    exists srcs. auto.
Qed.

(** *** Lines and titles *)

Lemma trimEnd_idempotent (s : string) : trimEnd (trimEnd s) = trimEnd s.
Proof.
  induction s as [|c r IH]; simpl; [reflexivity|].
  destruct (isWhiteSpace c && isEmpty (trimEnd r)) eqn:E; [reflexivity|].
  simpl. now rewrite IH, E.
Qed.

Lemma trimStart_head (s : string) :
  trimStart s = EmptyString
  \/ exists c r, trimStart s = String c r /\ isWhiteSpace c = false.
Proof.
  induction s as [|c r IH]; simpl; [now left|].
  destruct (isWhiteSpace c) eqn:E; [exact IH|].
  right. exists c, r. auto.
Qed.

Lemma trim_idempotent (s : string) : trim (trim s) = trim s.
Proof.
  unfold trim.
  destruct (trimStart_head s) as [->|(c & r & -> & Hc)]; [reflexivity|].
  simpl. rewrite Hc. simpl. rewrite Hc. simpl.
  now rewrite Hc, trimEnd_idempotent.
Qed.

Lemma longer_not_empty (s : string) : (3 <? String.length s) = true -> isEmpty s = false.
Proof. destruct s; [discriminate|reflexivity]. Qed.

Lemma primary_title_of_lines (ls : list string) :
  firstLineOr (List.filter (fun l => 3 <? String.length l) (map trim ls)) "Unknown" =
  match find (fun l => 3 <? String.length (trim l)) ls with
  | Some l => trim l
  | None => "Unknown"
  end.
Proof.
  induction ls as [|x ls IH]; [reflexivity|].
  cbn [map List.filter find].
  destruct (3 <? String.length (trim x)) eqn:E; [|exact IH].
  unfold firstLineOr. cbn [nth_error orElse].
  now rewrite (longer_not_empty _ E).
Qed.

Lemma secondary_title_of_lines (ls : list string) :
  firstLineOr (List.filter (fun l => 3 <? String.length (trim l)) ls) "Unknown" =
  match find (fun l => 3 <? String.length (trim l)) ls with
  | Some l => l
  | None => "Unknown"
  end.
Proof.
  induction ls as [|x ls IH]; [reflexivity|].
  cbn [List.filter find].
  destruct (3 <? String.length (trim x)) eqn:E; [|exact IH].
  unfold firstLineOr. cbn [nth_error orElse].
  destruct x as [|c r]; [discriminate E|reflexivity].
Qed.

Lemma found_line_not_blank (ls : list string) (l : string) :
  find (fun l => 3 <? String.length (trim l)) ls = Some l -> trim l <> EmptyString.
Proof.
  intros H. apply find_some in H as [_ H].
  intros Heq. rewrite Heq in H. discriminate.
Qed.

Lemma primary_title (link : Node) :
  title (primaryRecord link) =
  match firstNonTrivialLine (text (primaryRecord link)) with
  | Some l => trim l
  | None => "Unknown"
  end.
Proof. apply primary_title_of_lines. Qed.

Lemma secondary_title (t : string) (link : Node) :
  title (secondaryRecord t link) =
  match firstNonTrivialLine (text (secondaryRecord t link)) with
  | Some l => l
  | None => "Unknown"
  end.
Proof. apply secondary_title_of_lines. Qed.

(** *** Sources of the records *)




Lemma primary_records_produced (doc : Element) (srcs : list Node) :
  incl srcs (primaryLinks doc) ->
  Forall2 (ProducedFrom doc) (map primaryRecord srcs) srcs.
Proof.
  induction srcs as [|s srcs IH]; intros Hincl; simpl; constructor.
  - left. split; [apply Hincl; now left|reflexivity].
  - apply IH. intros x Hx. apply Hincl. now right.
Qed.






(** C8, as stated, fails: the card of [shortLinesPage] has no line longer
    than three characters, and the record is produced all the same, with a
    title that is no line of the card's text. *)
Lemma title_first_line_counterexample :
  exists a,
    extract shortLinesPage = Normal [a]
    /\ firstNonTrivialLine (text a) = None
    /\ title a = "Unknown"
    /\ ~ In (title a) (splitLines (text a)).
Proof.
  eexists. split; [vm_compute; reflexivity|]. split; [reflexivity|].
  split; [reflexivity|]. vm_compute. intros [H|[H|[]]]; discriminate H.
Qed.

(** C8, amended: every record produced by an extraction comes from a link
    of the page and has a title that is non-empty after trimming; when the
    text of its card has a line whose trimmed length exceeds 3, the title is
    the first such line (trimmed if the primary pass made the record, as it
    stands if the secondary pass did), and otherwise it is the literal
    "Unknown". *)
Theorem title_first_nontrivial_line_or_unknown
        (doc : Element) (result : list Assignment) (a : Assignment) :
  extract doc = Normal result ->
  In a result ->
  (exists link, ProducedFrom doc a link)
  /\ trim (title a) <> EmptyString
  /\ (fst (primaryPass doc) <> [] ->
      title a = match firstNonTrivialLine (text a) with
                | Some l => trim l
                | None => "Unknown"
                end)
  /\ (fst (primaryPass doc) = [] ->
      title a = match firstNonTrivialLine (text a) with
                | Some l => l
                | None => "Unknown"
                end).
Proof.
  intros H Ha.
  destruct (extract_provenance doc result H)
    as [(Hne & srcs & -> & Hincl & _)|(He & srcs & HF & _ & _)].
  - apply in_map_iff in Ha as (link & <- & Hlink).
    split; [exists link; left; auto|].
    split; [|split; [intros _; apply primary_title|intros Hc; contradiction]].
    rewrite primary_title.
    destruct (firstNonTrivialLine _) as [l|] eqn:Hl; [|discriminate].
    rewrite trim_idempotent. eapply found_line_not_blank; exact Hl.
  - assert (Hsrc : exists link, SecondaryFrom (cardItems doc) a link).
    { clear H He. induction HF as [|a' s result srcs Has HF IH]; [destruct Ha|].
      destruct Ha as [<-|Ha]; eauto. }
    destruct Hsrc as (link & Hsrc).
    split; [exists link; now right|].
    destruct Hsrc as (item & raw & _ & _ & _ & ->).
    split; [|split; [intros Hc; contradiction|intros _; apply secondary_title]].
    rewrite secondary_title.
    destruct (firstNonTrivialLine _) as [l|] eqn:Hl; [|discriminate].
    eapply found_line_not_blank; exact Hl.
Qed.

Lemma title_first_nontrivial_line_or_unknown_witness :
  extract filteredPage = Normal [chapterFourRecord]
  /\ In chapterFourRecord [chapterFourRecord]
  /\ (exists link, ProducedFrom filteredPage chapterFourRecord link)
  /\ trim (title chapterFourRecord) <> EmptyString
  /\ (fst (primaryPass filteredPage) <> [] ->
      title chapterFourRecord = match firstNonTrivialLine (text chapterFourRecord) with
                | Some l => trim l
                | None => "Unknown"
                end)
  /\ (fst (primaryPass filteredPage) = [] ->
      title chapterFourRecord = match firstNonTrivialLine (text chapterFourRecord) with
                | Some l => l
                | None => "Unknown"
                end).
Proof.
  split; [vm_compute; reflexivity|]. split; [now left|].
  apply (title_first_nontrivial_line_or_unknown filteredPage [chapterFourRecord] chapterFourRecord).
  - vm_compute. reflexivity.
  - now left.
Defined.

(** C10: the records of one extraction come, position by position, from
    links whose raw hrefs are pairwise distinct, whichever pass made them;
    the primary pass puts the href of every link it gets past the
    "not-turned-in" test into the seen-set, whether or not the exclusion
    check then drops the link; and when the secondary pass runs (the primary
    pass kept nothing), no record it makes has the href of such a link. *)
Theorem seen_set_shared_by_both_passes (doc : Element) (result : list Assignment) :
  extract doc = Normal result ->
  exists srcs,
    Forall2 (ProducedFrom doc) result srcs
    /\ NoDup (map hrefOf srcs)
    /\ (forall l, In l (primaryLinks doc) ->
                  includes (hrefOf l) "not-turned-in" = false ->
                  hrefOf l ∈ snd (primaryPass doc))
    /\ (fst (primaryPass doc) = [] ->
        forall l src, In l (primaryLinks doc) ->
                      includes (hrefOf l) "not-turned-in" = false ->
                      In src srcs -> hrefOf src <> hrefOf l).
Proof.
  intros H.
  destruct (scanLinks_inv (primaryLinks doc) [] ∅) as (_ & _ & _ & _ & _ & _ & Hall).
  change (fold_left scanLink (primaryLinks doc) ([], ∅)) with (primaryPass doc) in Hall.
  destruct (extract_provenance doc result H)
    as [(Hne & srcs & -> & Hincl & Hnd)|(He & srcs & HF & Hnd & Hout)].
  - exists srcs. split; [|split; [exact Hnd|split; [exact Hall|intros Hc; contradiction]]].
    now apply primary_records_produced.
  - exists srcs. split; [|split; [exact Hnd|split; [exact Hall|]]].
    + eapply Forall2_impl; [exact HF|]. intros a l Hal. now right.
    + intros _ l src Hl Hntl Hsrc Heq.
      apply (Hout src Hsrc). rewrite Heq. now apply Hall.
Qed.

Lemma seen_set_shared_by_both_passes_witness :
  extract filteredPage =
    Normal [chapterFourRecord]
  /\ exists srcs,
      Forall2 (ProducedFrom filteredPage)
              [chapterFourRecord] srcs
      /\ NoDup (map hrefOf srcs)
      /\ (forall l, In l (primaryLinks filteredPage) ->
                    includes (hrefOf l) "not-turned-in" = false ->
                    hrefOf l ∈ snd (primaryPass filteredPage))
      /\ (fst (primaryPass filteredPage) = [] ->
          forall l src, In l (primaryLinks filteredPage) ->
                        includes (hrefOf l) "not-turned-in" = false ->
                        In src srcs -> hrefOf src <> hrefOf l).
Proof.
  split; [vm_compute; reflexivity|].
  apply (seen_set_shared_by_both_passes filteredPage). vm_compute. reflexivity.
Defined.

(** ** Running the browser operations *)

Lemma extend_nil (w : World) : extend w (sfLog w) [] = w.
Proof. destruct w. unfold extend. simpl. now rewrite app_nil_r. Qed.

Lemma extend_extend (w : World) (sf sf' : option (list string)) (ev ev' : list Event) :
  extend (extend w sf ev) sf' ev' = extend w sf' (ev ++ ev').
Proof. unfold extend. simpl. now rewrite app_assoc. Qed.

Lemma bind_run {A B : Type} (c : M A) (k : A -> M B) (w : World) :
  bind c k w = match c w with
               | (Normal a, w') => k a w'
               | (Throw e, w') => (Throw e, w')
               end.
Proof. reflexivity. Qed.

Lemma emit_run (e : Event) (w : World) : emit e w = (Normal tt, extend w (sfLog w) [e]).
Proof. reflexivity. Qed.

Lemma log_run (msg : string) (w : World) :
  log msg w = (Normal tt, extend w (logAfter (sfLog w) [msg]) [consoleLine msg]).
Proof. reflexivity. Qed.

Lemma setStatus_run (msg : string) (w : World) :
  setStatus msg w =
  (Normal tt, extend w (logAfter (sfLog w) [msg]) [Status msg; consoleLine msg]).
Proof.
  unfold setStatus, bind. rewrite emit_run, log_run, extend_extend. reflexivity.
Qed.

Lemma addResult_run (html : string) (w : World) :
  addResult html w = (Normal tt, extend w (sfLog w) [Result html]).
Proof. reflexivity. Qed.

Lemma sleep_run (ms : nat) (w : World) :
  sleep ms w = (Normal tt, extend w (sfLog w) [Sleep ms]).
Proof. reflexivity. Qed.

(** Run the next browser operations of the goal and merge the extensions
    of the world they leave. *)
Ltac run_step :=
  first [ rewrite bind_run | rewrite setStatus_run | rewrite addResult_run
        | rewrite sleep_run | rewrite log_run | rewrite emit_run
        | rewrite extend_extend ].

Ltac run_browser := repeat run_step.

(** ** Generation client *)

Section Endpoints.

Variable textOf : JSON -> option JSON.
Variable label : string.

Lemma attemptEndpoint_run (req : Request) (w : World) :
  attemptEndpoint textOf req w =
  (attemptResult textOf (network w (events w) req), extend w (sfLog w) [Fetch req]).
Proof.
  unfold attemptEndpoint, bind, fetch. rewrite emit_run.
  destruct (network w (events w) req) as [msg|ok body]; [reflexivity|].
  destruct ok; [|reflexivity].
  destruct body as [data|]; [|reflexivity].
  unfold readResponse, attemptResult. cbn [fst snd negb json bind ret].
  destruct (textOf data) as [v|]; [|reflexivity].
  destruct v as [|b|q|s|items|fields]; try reflexivity.
  - destruct b; reflexivity.
  - cbn [truthy]. destruct (Qeq_bool q 0); reflexivity.
  - cbn [truthy]. destruct (isEmpty s); [reflexivity|].
    cbn [negb callTrim]. unfold bind, ret.
    destruct (isEmpty (trim s)); reflexivity.
Qed.

(** One guarded attempt never throws: an exception becomes a log line. *)
Lemma guarded_run (req : Request) (w : World) :
  tryCatch (attemptEndpoint textOf req)
           (fun e => log (label +:+ " error: " +:+ message e);; ret None) w =
  let c := attemptResult textOf (network w (events w) req) in
  (Normal (resultText c),
   extend w (logAfter (sfLog w) (errorLines label c))
          (Fetch req :: map consoleLine (errorLines label c))).
Proof.
  unfold tryCatch. rewrite attemptEndpoint_run. cbv zeta.
  destruct (attemptResult textOf (network w (events w) req)) as [r|e]; [reflexivity|].
  unfold bind. rewrite log_run, extend_extend. reflexivity.
Qed.

Lemma pipelineEvents_app (ev ev' : list Event) :
  pipelineEvents (ev ++ ev') = pipelineEvents ev ++ pipelineEvents ev'.
Proof. apply List.filter_app. Qed.

Lemma errorLines_quiet (c : Completion (option string)) :
  pipelineEvents (map consoleLine (errorLines label c)) = [].
Proof. destruct c; reflexivity. Qed.

(** The loop over the endpoints always returns, and what it adds to the
    trace is requests and console lines only; when every answer the network
    can give is a failure, it returns [null]. *)
Lemma tryEach_run (reqs : list Request) :
  forall w : World,
  exists r sf ev,
    tryEach textOf label reqs w = (Normal r, extend w sf ev)
    /\ pipelineEvents ev = []
    /\ ((forall hist req, In req reqs ->
                           resultText (attemptResult textOf (network w hist req)) = None) ->
        r = None).
Proof.
  induction reqs as [|req reqs IH]; intros w.
  - exists None, (sfLog w), []. rewrite extend_nil. auto.
  - cbn [tryEach]. unfold bind at 1. rewrite guarded_run. cbv zeta.
    set (c := attemptResult textOf (network w (events w) req)).
    destruct (resultText c) as [t|] eqn:Hc.
    + eexists _, _, _. split; [reflexivity|]. split.
      * cbn. apply errorLines_quiet.
      * intros Hall. specialize (Hall (events w) req (or_introl eq_refl)).
        fold c in Hall. congruence.
    + destruct (IH (extend w (logAfter (sfLog w) (errorLines label c))
                           (Fetch req :: map consoleLine (errorLines label c))))
        as (r & sf & ev & Hrun & Hquiet & Hnone).
      rewrite Hrun, extend_extend.
      eexists _, _, _. split; [reflexivity|]. split.
      * rewrite pipelineEvents_app, Hquiet, app_nil_r. cbn. apply errorLines_quiet.
      * intros Hall. apply Hnone. intros hist req' Hin. apply Hall. now right.
Qed.

End Endpoints.

Lemma callLLM_tryEach (cfg : Config) (prompt : string) :
  callLLM cfg prompt = tryEach (textOf cfg) (providerLabel cfg) (endpointRequests cfg prompt).
Proof.
  unfold callLLM, textOf, providerLabel, endpointRequests, callOpenRouter, callGeminiDirect.
  destruct (String.eqb (API_MODE cfg) "openrouter"); reflexivity.
Qed.

Lemma fails_no_text (textOf : JSON -> option JSON) (answer : FetchResult) :
  EndpointFails textOf answer -> resultText (attemptResult textOf answer) = None.
Proof.
  intros [msg|body|data Habs|data s Htxt Hblank]; cbn [attemptResult resultText].
  - reflexivity.
  - reflexivity.
  - rewrite Habs. reflexivity.
  - rewrite Htxt. destruct (isEmpty s); [reflexivity|]. now rewrite Hblank.
Qed.

(** C4: [callLLM] never throws to its caller: on every prompt and in every
    world it completes normally, with a text or with [null]; and when the
    request of every configured endpoint meets a rejected request, a
    non-success status, or a body whose extracted text is absent, empty or
    white space only, it returns [null]. *)
Theorem callLLM_never_throws (cfg : Config) (prompt : string) (w : World) :
  (exists r w', callLLM cfg prompt w = (Normal r, w'))
  /\ ((forall hist req, In req (endpointRequests cfg prompt) ->
                         EndpointFails (textOf cfg) (network w hist req)) ->
      exists w', callLLM cfg prompt w = (Normal None, w')).
Proof.
  rewrite callLLM_tryEach.
  destruct (tryEach_run (textOf cfg) (providerLabel cfg) (endpointRequests cfg prompt) w)
    as (r & sf & ev & Hrun & _ & Hnone).
  split; [eauto|].
  intros Hfail. rewrite Hrun, Hnone; [eauto|].
  intros hist req Hin. apply fails_no_text, Hfail, Hin.
Qed.

Lemma callLLM_never_throws_witness :
  (forall hist req, In req (endpointRequests geminiConfig "Write about rivers") ->
                    EndpointFails (textOf geminiConfig)
                                  (network (todoWorld filteredPage [] nothingAnswers) hist req))
  /\ exists w',
      callLLM geminiConfig "Write about rivers" (todoWorld filteredPage [] nothingAnswers)
      = (Normal None, w').
Proof.
  assert (Hdown : forall hist req,
             In req (endpointRequests geminiConfig "Write about rivers") ->
             EndpointFails (textOf geminiConfig)
                           (network (todoWorld filteredPage [] nothingAnswers) hist req))
    by (intros hist req _; apply fails_status).
  split; [exact Hdown|].
  apply (callLLM_never_throws geminiConfig "Write about rivers"
                              (todoWorld filteredPage [] nothingAnswers)).
  exact Hdown.
Defined.

Lemma not_blank_not_empty (t : string) :
  trim t <> EmptyString -> isEmpty t = false /\ isEmpty (trim t) = false.
Proof.
  intros H. split.
  - destruct t; [now contradiction H|reflexivity].
  - destruct (trim t); [now contradiction H|reflexivity].
Qed.

Lemma reportOutcome_run (a : Assignment) (draft : option string) (w : World) :
  exists sf ev,
    reportOutcome a draft w = (Normal tt, extend w sf ev)
    /\ pipelineEvents ev = [Result (outcomeHtml a draft)].
Proof.
  unfold reportOutcome, outcomeHtml.
  destruct draft as [d|]; cbn [option_map truthy].
  - destruct (isEmpty d); cbn [negb].
    + rewrite addResult_run. eauto.
    + unfold bind. rewrite addResult_run, log_run, extend_extend. eauto.
  - rewrite addResult_run. eauto.
Qed.

Lemma reportOutcome_success (a : Assignment) (d : string) (w : World) :
  isEmpty d = false ->
  reportOutcome a (Some d) w =
  (Normal tt,
   extend w (logAfter (sfLog w)
                      ["Draft generated for: " +:+ title a +:+ " ("
                       +:+ ofNat (String.length d) +:+ " chars)"])
          [ Result (successHtml a d);
            consoleLine ("Draft generated for: " +:+ title a +:+ " ("
                         +:+ ofNat (String.length d) +:+ " chars)") ]).
Proof.
  intros Hd. unfold reportOutcome. cbn [option_map truthy]. rewrite Hd. cbn [negb].
  unfold bind. rewrite addResult_run, log_run, extend_extend. reflexivity.
Qed.

(** The fallback scenario, for the client alone. *)
Lemma callLLM_fallback (cfg : Config) (prompt : string) (w : World)
      (reqA reqB : Request) (bodyA : option JSON) (data : JSON) (t : string) :
  endpointRequests cfg prompt = [reqA; reqB] ->
  (forall hist, network w hist reqA = Response false bodyA) ->
  (forall hist, network w hist reqB = Response true (Some data)) ->
  textOf cfg data = Some (JStr t) ->
  trim t <> EmptyString ->
  callLLM cfg prompt w = (Normal (Some (trim t)), extend w (sfLog w) [Fetch reqA; Fetch reqB]).
Proof.
  intros Hreqs HA HB Htxt Hblank.
  destruct (not_blank_not_empty t Hblank) as [He Het].
  rewrite callLLM_tryEach, Hreqs. cbn [tryEach].
  rewrite bind_run, guarded_run, HA. cbn [attemptResult resultText errorLines map logAfter].
  rewrite bind_run, guarded_run. cbn [network extend].
  rewrite HB. cbn [attemptResult]. rewrite Htxt, He, Het.
  cbn [resultText errorLines map logAfter ret].
  change (mkWorld (location w) (document w) (globals w) (network w) (sfLog w)
                  (events w ++ [Fetch reqA]))
    with (extend w (sfLog w) [Fetch reqA]).
  now rewrite extend_extend.
Qed.

(** C3, as stated, fails twice.  The text returned is not the fallback's
    text but its trimmed form: here the fallback answers " hi " and
    [callLLM] returns "hi".  And no outcome reports a provider: whether the
    first endpoint answers "hi", or it is refused and the fallback answers
    "hi", everything the operator can observe of the record is the same,
    although the requests issued differ; so nothing read off the outcome
    can name the endpoint that was used. *)
Lemma providerUsed_counterexample :
  fst (callLLM geminiConfig (promptFor chapterFourRecord)
               (todoWorld filteredPage [] (fallbackAnswers " hi ")))
  = Normal (Some "hi")
  /\ "hi" <> " hi "
  /\ map reqUrl (fetchesOf (events (snd (draftOne geminiConfig 1 0 chapterFourRecord
                                          (todoWorld filteredPage [] (primaryAnswers "hi"))))))
     = [GEMINI_URL geminiConfig]
  /\ map reqUrl (fetchesOf (events (snd (draftOne geminiConfig 1 0 chapterFourRecord
                                          (todoWorld filteredPage [] (fallbackAnswers "hi"))))))
     = [GEMINI_URL geminiConfig; GEMINI_FALLBACK geminiConfig]
  /\ observable (events (snd (draftOne geminiConfig 1 0 chapterFourRecord
                                       (todoWorld filteredPage [] (primaryAnswers "hi")))))
     = observable (events (snd (draftOne geminiConfig 1 0 chapterFourRecord
                                         (todoWorld filteredPage [] (fallbackAnswers "hi")))))
  /\ forall providerUsed : list Event -> string,
      ~ (providerUsed
           (observable (events (snd (draftOne geminiConfig 1 0 chapterFourRecord
                                              (todoWorld filteredPage [] (primaryAnswers "hi"))))))
         = GEMINI_URL geminiConfig
         /\ providerUsed
              (observable (events (snd (draftOne geminiConfig 1 0 chapterFourRecord
                                                 (todoWorld filteredPage [] (fallbackAnswers "hi"))))))
            = GEMINI_FALLBACK geminiConfig).
Proof.
  assert (Hobs :
    observable (events (snd (draftOne geminiConfig 1 0 chapterFourRecord
                                      (todoWorld filteredPage [] (primaryAnswers "hi")))))
    = observable (events (snd (draftOne geminiConfig 1 0 chapterFourRecord
                                        (todoWorld filteredPage [] (fallbackAnswers "hi")))))).
  { vm_compute. reflexivity. }
  split; [vm_compute; reflexivity|].
  split; [discriminate|].
  split; [vm_compute; reflexivity|].
  split; [vm_compute; reflexivity|].
  split; [exact Hobs|].
  intros providerUsed [HA HB]. rewrite Hobs, HB in HA.
  vm_compute in HA. discriminate HA.
Qed.

(** C3, amended: when the request to the first endpoint of the configured
    provider gets a non-success status and the request to the second gets a
    success whose extracted text is a string that is not blank, [callLLM]
    returns that text trimmed, after one request to each endpoint in order
    and without logging an error; and the loop iteration of a record whose
    prompt this is emits the record's starting status and header, the two
    requests, and a success block built from the trimmed text (nothing in
    it names an endpoint). *)
Theorem fallback_returns_trimmed_text
        (cfg : Config) (N i : nat) (a : Assignment) (w : World)
        (reqA reqB : Request) (bodyA : option JSON) (data : JSON) (t : string) :
  endpointRequests cfg (promptFor a) = [reqA; reqB] ->
  (forall hist, network w hist reqA = Response false bodyA) ->
  (forall hist, network w hist reqB = Response true (Some data)) ->
  textOf cfg data = Some (JStr t) ->
  trim t <> EmptyString ->
  callLLM cfg (promptFor a) w
  = (Normal (Some (trim t)), extend w (sfLog w) [Fetch reqA; Fetch reqB])
  /\ exists sf,
      draftOne cfg N i a w
      = (Normal tt,
         extend w sf
                ([ Status (startingStatus N i a); consoleLine (startingStatus N i a);
                   Result (headerHtml i a);
                   Fetch reqA; Fetch reqB;
                   Result (successHtml a (trim t));
                   consoleLine ("Draft generated for: " +:+ title a +:+ " ("
                                +:+ ofNat (String.length (trim t)) +:+ " chars)") ]
                 ++ (if i <? N - 1 then [Sleep 2000] else []))).
Proof.
  intros Hreqs HA HB Htxt Hblank.
  split; [eapply callLLM_fallback; eauto|].
  destruct (not_blank_not_empty t Hblank) as [_ Het].
  unfold draftOne, generateDraft, bind.
  rewrite setStatus_run, addResult_run, extend_extend.
  rewrite (callLLM_fallback cfg (promptFor a) _ reqA reqB bodyA data t);
    [|assumption|exact HA|exact HB|assumption|assumption].
  rewrite extend_extend, (reportOutcome_success a (trim t) _ Het), extend_extend.
  destruct (i <? N - 1).
  - rewrite sleep_run, extend_extend. eexists. reflexivity.
  - cbn [ret]. rewrite app_nil_r. eexists. reflexivity.
Qed.

Lemma fallback_returns_trimmed_text_witness :
  endpointRequests geminiConfig (promptFor chapterFourRecord) = [firstRequest; secondRequest]
  /\ (forall hist, network fallbackWorld hist firstRequest = Response false None)
  /\ (forall hist, network fallbackWorld hist secondRequest
                   = Response true (Some (geminiBody " hi ")))
  /\ textOf geminiConfig (geminiBody " hi ") = Some (JStr " hi ")
  /\ trim " hi " <> EmptyString
  /\ callLLM geminiConfig (promptFor chapterFourRecord) fallbackWorld
     = (Normal (Some (trim " hi ")),
        extend fallbackWorld (sfLog fallbackWorld) [Fetch firstRequest; Fetch secondRequest])
  /\ exists sf,
      draftOne geminiConfig 1 0 chapterFourRecord fallbackWorld
      = (Normal tt,
         extend fallbackWorld sf
                ([ Status (startingStatus 1 0 chapterFourRecord);
                   consoleLine (startingStatus 1 0 chapterFourRecord);
                   Result (headerHtml 0 chapterFourRecord);
                   Fetch firstRequest; Fetch secondRequest;
                   Result (successHtml chapterFourRecord (trim " hi "));
                   consoleLine ("Draft generated for: " +:+ title chapterFourRecord +:+ " ("
                                +:+ ofNat (String.length (trim " hi ")) +:+ " chars)") ]
                 ++ (if 0 <? 1 - 1 then [Sleep 2000] else []))).
Proof.
  assert (H1 : endpointRequests geminiConfig (promptFor chapterFourRecord)
               = [firstRequest; secondRequest]) by reflexivity.
  assert (H2 : forall hist, network fallbackWorld hist firstRequest = Response false None)
    by (intros hist; vm_compute; reflexivity).
  assert (H3 : forall hist, network fallbackWorld hist secondRequest
                            = Response true (Some (geminiBody " hi ")))
    by (intros hist; vm_compute; reflexivity).
  assert (H4 : textOf geminiConfig (geminiBody " hi ") = Some (JStr " hi ")) by reflexivity.
  assert (H5 : trim " hi " <> EmptyString) by (vm_compute; discriminate).
  repeat (split; [assumption|]).
  apply (fallback_returns_trimmed_text geminiConfig 1 0 chapterFourRecord fallbackWorld
           firstRequest secondRequest None (geminiBody " hi ") " hi " H1 H2 H3 H4 H5).
Defined.

(** ** Orchestration *)




Lemma resultsOf_pipelineEvents (ev : list Event) :
  resultsOf (pipelineEvents ev) = resultsOf ev.
Proof.
  induction ev as [|e ev IH]; [reflexivity|].
  destruct e; simpl; rewrite ?IH; try reflexivity; exact IH.
Qed.



Lemma resultsOf_app (ev ev' : list Event) :
  resultsOf (ev ++ ev') = resultsOf ev ++ resultsOf ev'.
Proof. apply flat_map_app. Qed.



Lemma resultsOf_block (N : nat) (entry : nat * Assignment * option string) :
  resultsOf (recordBlock N entry)
  = [headerHtml (fst (fst entry)) (snd (fst entry)); outcomeHtml (snd (fst entry)) (snd entry)].
Proof. destruct entry as [[i a] d]. simpl. destruct (i <? N - 1); reflexivity. Qed.








(** *** The run as a whole *)

Lemma fetchesOf_app (ev ev' : list Event) :
  fetchesOf (ev ++ ev') = fetchesOf ev ++ fetchesOf ev'.
Proof. apply flat_map_app. Qed.



Lemma scanLiveTodo_on_todo_page (w : World) :
  includes (location w) "/a/" = true ->
  scanLiveTodo w =
  (match extract (document w) with
   | Normal l => Normal (Some l)
   | Throw e => Throw e
   end,
   extend w (logAfter (sfLog w) ["Scanning To-do page..."])
          [ Status "Scanning To-do page..."; consoleLine "Scanning To-do page...";
            Sleep 3000 ]).
Proof.
  intros Hloc. unfold scanLiveTodo.
  rewrite bind_run, setStatus_run. cbn [location extend].
  rewrite Hloc, andb_false_r.
  rewrite bind_run, sleep_run, extend_extend. cbn [document extend].
  destruct (extract (document w)); reflexivity.
Qed.




(** C1 (the second half fails on the code): with a genuine key configured
    and a to-do page holding two assignments, the key check raises a
    ReferenceError, because it reads the undeclared [GEMINI_KEY], and the run
    ends with the status "Error: GEMINI_KEY is not defined"; discovery never
    starts, although the pipeline run from discovery on the same world finds
    and drafts both assignments. *)
Theorem genuine_key_run_stops_at_key_check :
  API_KEY geminiConfig <> KEY_PLACEHOLDER
  /\ API_KEY geminiConfig <> EmptyString
  /\ run geminiConfig (todoWorld duplicatePage [] (primaryAnswers "A draft."))
     = [ PanelCreated;
         Status "Error: GEMINI_KEY is not defined";
         consoleLine "Error: GEMINI_KEY is not defined";
         consoleLine "Fatal: ReferenceError: GEMINI_KEY is not defined" ]
  /\ statusesOf (events (snd (pipeline geminiConfig
                                       (todoWorld duplicatePage [] (primaryAnswers "A draft.")))))
     = [ "Scanning To-do page...";
         "Found 2 assignment(s). Generating drafts...";
         "[1/2] Drafting: Essay on rivers";
         "[2/2] Drafting: Essay on rivers, again";
         "Done! 2 assignment(s) processed." ].
Proof.
  split; [discriminate|]. split; [discriminate|].
  split; vm_compute; reflexivity.
Qed.

(** * Further properties *)

(** ** Classification: letter case *)


Lemma canonicalize_lowerChar (c : ascii) : canonicalize (lowerChar c) = canonicalize c.
Proof. destruct c as [[] [] [] [] [] [] [] []]; reflexivity. Qed.

Lemma isWordChar_lowerChar (c : ascii) : isWordChar (lowerChar c) = isWordChar c.
Proof. destruct c as [[] [] [] [] [] [] [] []]; reflexivity. Qed.

Lemma isWhiteSpace_lowerChar (c : ascii) : isWhiteSpace (lowerChar c) = isWhiteSpace c.
Proof. destruct c as [[] [] [] [] [] [] [] []]; reflexivity. Qed.


Lemma toLowerCase_app (s t : string) :
  toLowerCase (s +:+ t) = toLowerCase s +:+ toLowerCase t.
Proof. induction s as [|c r IH]; simpl; [reflexivity|]. now rewrite IH. Qed.

Lemma length_toLowerCase (s : string) : String.length (toLowerCase s) = String.length s.
Proof. induction s as [|c r IH]; simpl; [reflexivity|]. now rewrite IH. Qed.

Lemma wordBefore_lower (p : option ascii) : wordBefore (lowerPrev p) = wordBefore p.
Proof. destruct p; simpl; [apply isWordChar_lowerChar|reflexivity]. Qed.

Lemma wordAfter_lower (s : string) : wordAfter (toLowerCase s) = wordAfter s.
Proof. destruct s; simpl; [reflexivity|apply isWordChar_lowerChar]. Qed.

Lemma progress_CaseBlind (s : string) (k k' : Cont) :
  CaseBlind k k' -> CaseBlind (progress s k) (progress (toLowerCase s) k').
Proof.
  intros Hk p s'. unfold progress. rewrite !length_toLowerCase.
  destruct (String.length s' <? String.length s); [apply Hk|reflexivity].
Qed.

(** With the [i] flag, matching the lowered input gives the lowered rest. *)
Lemma matchAt_lower (r : Pattern) :
  forall (prev : option ascii) (s : string) (k k' : Cont),
    CaseBlind k k' ->
    matchAt true r (lowerPrev prev) (toLowerCase s) k'
    = option_map toLowerCase (matchAt true r prev s k).
Proof.
  induction r as [|c| | |a IHa b IHb|a IHa b IHb|a IHa|a IHa]; intros prev s k k' Hk.
  - apply Hk.
  - destruct s as [|d s']; simpl; [reflexivity|].
    unfold charMatches. rewrite canonicalize_lowerChar.
    destruct (Ascii.eqb (canonicalize c) (canonicalize d)); [apply (Hk (Some d))|reflexivity].
  - destruct s as [|d s']; simpl; [reflexivity|].
    rewrite isWhiteSpace_lowerChar.
    destruct (isWhiteSpace d); [apply (Hk (Some d))|reflexivity].
  - cbn [matchAt]. rewrite wordBefore_lower, wordAfter_lower.
    destruct (xorb (wordBefore prev) (wordAfter s)); [apply Hk|reflexivity].
  - cbn [matchAt]. apply IHa. intros p s'. now apply IHb.
  - cbn [matchAt]. rewrite (IHa prev s k k' Hk), (IHb prev s k k' Hk).
    destruct (matchAt true a prev s k); reflexivity.
  - cbn [matchAt].
    rewrite (IHa prev s _ _ (progress_CaseBlind s k k' Hk)).
    destruct (matchAt true a prev s (progress s k)); [reflexivity|apply Hk].
  - cbn [matchAt]. rewrite length_toLowerCase.
    generalize (String.length s) as fuel. intros fuel. revert prev s.
    induction fuel as [|fuel IHfuel]; intros prev s; [apply Hk|].
    rewrite (IHa prev s _ _ (progress_CaseBlind s _ _ IHfuel)).
    match goal with
    | |- context [matchAt true a prev s ?kk] => destruct (matchAt true a prev s kk)
    end; [reflexivity|apply Hk].
Qed.

Lemma search_lower (r : Pattern) (s : string) :
  forall prev : option ascii,
    search true r (lowerPrev prev) (toLowerCase s)
    = option_map toLowerCase (search true r prev s).
Proof.
  assert (Hk : CaseBlind (fun _ rest => Some rest) (fun _ rest => Some rest))
    by (intros p s'; reflexivity).
  induction s as [|c s' IH]; intros prev.
  - pose proof (matchAt_lower r prev EmptyString _ _ Hk) as H.
    cbn [search toLowerCase] in *. rewrite H.
    destruct (matchAt true r prev EmptyString _); reflexivity.
  - pose proof (matchAt_lower r prev (String c s') _ _ Hk) as H.
    cbn [search toLowerCase] in *. rewrite H.
    destruct (matchAt true r prev (String c s') _); [reflexivity|].
    apply (IH (Some c)).
Qed.

Lemma ruleType_lower (types : list string) (title : string) :
  ruleType types (toLowerCase title) = ruleType types title.
Proof.
  unfold ruleType. induction types as [|t types IH]; [reflexivity|].
  cbn [existsb]. rewrite IH. f_equal.
  rewrite !(test_not_global (wordRegExp _)) by reflexivity. cbn [fst ignoreCase pattern wordRegExp].
  rewrite (search_lower _ title None).
  destruct (search true _ None title); reflexivity.
Qed.





(** ** Classification: keywords and whole words *)

Lemma startsWith_empty (s : string) : startsWith s EmptyString = true.
Proof. destruct s; reflexivity. Qed.

Lemma startsWith_app (p s : string) : startsWith (p +:+ s) p = true.
Proof.
  induction p as [|c p IH]; simpl; [apply startsWith_empty|].
  now rewrite Ascii.eqb_refl, IH.
Qed.

Lemma startsWith_app_l (s p t : string) :
  startsWith s p = true -> startsWith (s +:+ t) p = true.
Proof.
  revert s. induction p as [|c p IH]; intros s H; [apply startsWith_empty|].
  destruct s as [|d s]; [discriminate|]. simpl in *.
  apply andb_true_iff in H as [Hc Hs]. now rewrite Hc, (IH s Hs).
Qed.

Lemma startsWith_inv (s p : string) :
  startsWith s p = true -> exists rest, s = p +:+ rest.
Proof.
  revert s. induction p as [|c p IH]; intros s H.
  - exists s. reflexivity.
  - destruct s as [|d s]; [discriminate|]. simpl in H.
    apply andb_true_iff in H as [Hc Hs]. apply Ascii.eqb_eq in Hc as ->.
    destruct (IH s Hs) as [rest ->]. exists rest. reflexivity.
Qed.

Lemma includes_unfold (s sub : string) :
  includes s sub
  = startsWith s sub || match s with
                        | EmptyString => false
                        | String _ r => includes r sub
                        end.
Proof. destruct s; reflexivity. Qed.

Lemma includes_app_l (s sub t : string) :
  includes s sub = true -> includes (s +:+ t) sub = true.
Proof.
  induction s as [|c s IH]; intros H.
  - rewrite includes_unfold in H. rewrite orb_false_r in H.
    rewrite includes_unfold. now rewrite (startsWith_app_l _ _ t H).
  - rewrite includes_unfold in H. apply orb_true_iff in H as [H|H].
    + rewrite includes_unfold. now rewrite (startsWith_app_l _ _ t H).
    + change (String c s +:+ t) with (String c (s +:+ t)).
      rewrite includes_unfold, (IH H). apply orb_true_r.
Qed.

Lemma includes_app_r (p s sub : string) :
  includes s sub = true -> includes (p +:+ s) sub = true.
Proof.
  intros H. induction p as [|c p IH]; [exact H|].
  change (String c p +:+ s) with (String c (p +:+ s)).
  rewrite includes_unfold, IH. apply orb_true_r.
Qed.

Lemma search_here (i : bool) (r : Pattern) (prev : option ascii) (s rest : string) :
  matchAt i r prev s (fun _ x => Some x) = Some rest -> search i r prev s = Some rest.
Proof. intros H. destruct s; simpl; now rewrite H. Qed.

Lemma search_later (i : bool) (r : Pattern) (prev : option ascii) (c : ascii) (s : string) :
  search i r (Some c) s <> None -> search i r prev (String c s) <> None.
Proof.
  intros H. cbn [search].
  destruct (matchAt i r prev (String c s) _); [discriminate|exact H].
Qed.

(** A match that starts right after [pre] is found by the search. *)
Lemma search_skip (i : bool) (r : Pattern) (pre s rest : string) :
  forall prev : option ascii,
    matchAt i r (lastChar prev pre) s (fun _ x => Some x) = Some rest ->
    search i r prev (pre +:+ s) <> None.
Proof.
  induction pre as [|c pre IH]; intros prev H.
  - cbn [lastChar] in H. change (EmptyString +:+ s) with s.
    now rewrite (search_here _ _ _ _ _ H).
  - change (String c pre +:+ s) with (String c (pre +:+ s)).
    apply search_later. now apply IH.
Qed.

Lemma matchAt_alt_right (i : bool) (a b : Pattern) (prev : option ascii)
      (s rest : string) (k : Cont) :
  matchAt i b prev s k = Some rest -> matchAt i (PAlt a b) prev s k <> None.
Proof.
  intros H. cbn [matchAt]. destruct (matchAt i a prev s k); [discriminate|].
  now rewrite H.
Qed.

Lemma search_apush (s : string) :
  forall prev : option ascii,
    includes s "apush" = true -> search true APUSH_PATTERN prev s <> None.
Proof.
  induction s as [|c s IH]; intros prev H; [discriminate|].
  rewrite includes_unfold in H. apply orb_true_iff in H as [H|H].
  - apply startsWith_inv in H as [rest ->].
    assert (Hm : matchAt true APUSH_PATTERN prev ("apush" +:+ rest) (fun _ x => Some x) <> None).
    { eapply matchAt_alt_right. reflexivity. }
    destruct (matchAt true APUSH_PATTERN prev ("apush" +:+ rest) (fun _ x => Some x))
      as [e|] eqn:He; [|contradiction].
    now rewrite (search_here _ _ _ _ _ He).
  - apply search_later. now apply IH.
Qed.

Lemma test_found (re : RegExp) (s : string) :
  global re = false ->
  search (ignoreCase re) (pattern re) None s <> None ->
  fst (test re s) = true.
Proof.
  intros Hg H. rewrite (test_not_global re s Hg).
  destruct (search _ _ None s); [reflexivity|contradiction].
Qed.

Lemma includes_combined (kw title course : string) :
  includes (toLowerCase title) kw = true \/ includes (toLowerCase course) kw = true ->
  includes (combinedOf title course) kw = true.
Proof.
  intros Hin. unfold combinedOf. rewrite !toLowerCase_app. destruct Hin as [H|H].
  - now apply includes_app_l.
  - now apply includes_app_r, includes_app_r.
Qed.

Lemma course_keyword_excludes (kw title course : string) :
  In kw IGNORE_COURSES ->
  includes (combinedOf title course) kw = true ->
  shouldSkip title course = true.
Proof.
  intros Hkw Hcomb. rewrite shouldSkip_disjunction.
  assert (H1 : excludedCourseRule title course = true).
  { unfold excludedCourseRule, ruleCourse. apply existsb_exists. eauto. }
  now rewrite H1.
Qed.

(** X2: the excluded-course keywords and "apush" are matched as plain
    substrings of the lowered title and group: a title or a group label
    that contains one of them anywhere, in any letter case and even inside
    a longer word, excludes the record. *)
Theorem keyword_anywhere_excludes (kw title course : string) :
  In kw (IGNORE_COURSES ++ ["apush"]) ->
  includes (toLowerCase title) kw = true \/ includes (toLowerCase course) kw = true ->
  shouldSkip title course = true.
Proof.
  intros Hkw Hin. apply includes_combined in Hin.
  apply in_app_or in Hkw as [Hkw|[<-|[]]].
  - now apply (course_keyword_excludes kw).
  - rewrite shouldSkip_disjunction.
    assert (H2 : excludedSubjectRule title course = true).
    { unfold excludedSubjectRule. apply test_found; [reflexivity|].
      now apply search_apush. }
    rewrite H2. apply orb_true_iff. left. apply orb_true_r.
Qed.

Lemma keyword_anywhere_excludes_witness :
  In "deca" (IGNORE_COURSES ++ ["apush"])
  /\ (includes (toLowerCase "Review of the Decade") "deca" = true
      \/ includes (toLowerCase "History, Period 1") "deca" = true)
  /\ shouldSkip "Review of the Decade" "History, Period 1" = true.
Proof.
  assert (H1 : In "deca" (IGNORE_COURSES ++ ["apush"])) by (simpl; auto).
  assert (H2 : includes (toLowerCase "Review of the Decade") "deca" = true
               \/ includes (toLowerCase "History, Period 1") "deca" = true)
    by (left; reflexivity).
  split; [exact H1|]. split; [exact H2|].
  apply (keyword_anywhere_excludes "deca" "Review of the Decade" "History, Period 1" H1 H2).
Defined.

Lemma lastChar_lower (pre : string) :
  forall prev : option ascii,
    lastChar (lowerPrev prev) (toLowerCase pre) = lowerPrev (lastChar prev pre).
Proof.
  induction pre as [|c pre IH]; intros prev; [reflexivity|].
  simpl. apply (IH (Some c)).
Qed.

Lemma word_token_matches (tok post : string) (prev : option ascii) :
  In tok IGNORE_TYPES ->
  wordBefore prev = false ->
  wordAfter post = false ->
  matchAt true (pattern (wordRegExp tok)) prev (tok +:+ post) (fun _ x => Some x)
  = Some post.
Proof.
  intros Htok Hb Ha.
  destruct Htok as [<-|[<-|[<-|[<-|[<-|[]]]]]];
    simpl; rewrite Hb; simpl; change (EmptyString +:+ post) with post;
    rewrite Ha; reflexivity.
Qed.

(** X3: an assignment-type token that stands in the title as a whole word
    (no letter, digit or underscore right before or right after it), in
    any letter case, excludes the record whatever the group label is. *)
Theorem type_token_whole_word_excludes (tok word pre post course : string) :
  In tok IGNORE_TYPES ->
  toLowerCase word = tok ->
  wordBefore (lastChar None pre) = false ->
  wordAfter post = false ->
  shouldSkip (pre +:+ word +:+ post) course = true.
Proof.
  intros Htok Hword Hb Ha.
  rewrite shouldSkip_disjunction.
  assert (H3 : excludedTypeRule (pre +:+ word +:+ post) course = true).
  { unfold excludedTypeRule. rewrite <- ruleType_lower.
    rewrite !toLowerCase_app, Hword.
    unfold ruleType. apply existsb_exists. exists tok. split; [exact Htok|].
    apply test_found; [reflexivity|].
    eapply (search_skip true _ (toLowerCase pre) (tok +:+ toLowerCase post)).
    apply word_token_matches; [exact Htok| |].
    - change None with (lowerPrev None).
      now rewrite lastChar_lower, wordBefore_lower.
    - now rewrite wordAfter_lower. }
  rewrite H3. apply orb_true_r.
Qed.

Lemma type_token_whole_word_excludes_witness :
  In "dbq" IGNORE_TYPES
  /\ toLowerCase "DBQ" = "dbq"
  /\ wordBefore (lastChar None "Unit 2 ") = false
  /\ wordAfter ": causes of the war" = false
  /\ shouldSkip ("Unit 2 " +:+ "DBQ" +:+ ": causes of the war") "World History" = true.
Proof.
  assert (H1 : In "dbq" IGNORE_TYPES) by (simpl; auto).
  assert (H2 : toLowerCase "DBQ" = "dbq") by reflexivity.
  assert (H3 : wordBefore (lastChar None "Unit 2 ") = false) by reflexivity.
  assert (H4 : wordAfter ": causes of the war" = false) by reflexivity.
  repeat (split; [assumption|]).
  apply (type_token_whole_word_excludes "dbq" "DBQ" "Unit 2 " ": causes of the war"
                                        "World History" H1 H2 H3 H4).
Defined.

(** ** Extraction: what every returned record satisfies *)

Lemma scanLinks_Forall (P : Assignment -> Prop) (links : list Node) :
  (forall link,
      In link links ->
      includes (hrefOf link) "not-turned-in" = false ->
      shouldSkip (title (primaryRecord link)) (course (primaryRecord link)) = false ->
      P (primaryRecord link)) ->
  forall (acc : list Assignment) (seen : gset string),
    Forall P acc -> Forall P (fst (fold_left scanLink links (acc, seen))).
Proof.
  induction links as [|link links IH]; intros Hkeep acc seen Hacc; [exact Hacc|].
  cbn [fold_left].
  assert (Hrest : forall l, In l links ->
                            includes (hrefOf l) "not-turned-in" = false ->
                            shouldSkip (title (primaryRecord l)) (course (primaryRecord l)) = false ->
                            P (primaryRecord l))
    by (intros l Hl; apply Hkeep; now right).
  unfold scanLink at 2.
  destruct (bool_decide (hrefOf link ∈ seen) || includes (hrefOf link) "not-turned-in")
    eqn:Hskip; [now apply IH|].
  apply orb_false_iff in Hskip as [_ Hntl].
  destruct (shouldSkip (title (primaryRecord link)) (course (primaryRecord link))) eqn:Hs;
    cbn [negb]; apply IH; auto.
  apply Forall_app. split; [exact Hacc|].
  constructor; [|constructor]. apply Hkeep; auto. now left.
Qed.

Lemma scanItems_Forall (P : Assignment -> Prop) (items : list Node) :
  (forall item raw link,
      In item items ->
      innerText (element item) = Some raw ->
      linkOfItem item = Some link ->
      shouldSkip (title (secondaryRecord (trim raw) link)) (trim raw) = false ->
      P (secondaryRecord (trim raw) link)) ->
  forall (st st' : ScanState),
    scanItems items st = Normal st' -> Forall P (fst st) -> Forall P (fst st').
Proof.
  induction items as [|item items IH]; intros Hkeep st st'; cbn [scanItems].
  - intros [= <-]. auto.
  - destruct (scanItem st item) as [st1|e] eqn:Hstep; [|discriminate].
    intros Hrest Hacc. eapply IH; [|exact Hrest|].
    + intros it raw link Hit. apply Hkeep. now right.
    + destruct st as [acc seen]. unfold scanItem, linkOfItem in *.
      destruct (innerText (element item)) as [raw|] eqn:Hraw; [|discriminate].
      destruct (querySelector anyDetailsSelector item) as [link|] eqn:Hlink;
        [|injection Hstep as <-; exact Hacc].
      destruct (bool_decide (hrefOf link ∈ seen)); cbn [negb andb] in Hstep;
        [injection Hstep as <-; exact Hacc|].
      destruct (shouldSkip _ _) eqn:Hs; cbn [negb] in Hstep;
        injection Hstep as <-; [exact Hacc|].
      cbn [fst]. apply Forall_app. split; [exact Hacc|].
      constructor; [|constructor].
      apply (Hkeep item raw link); auto. now left.
Qed.

(** A property of every kept record of either pass holds of every record
    the extraction returns. *)
Lemma extract_Forall (P Q : Assignment -> Prop) (doc : Element) (result : list Assignment) :
  extract doc = Normal result ->
  (forall link,
      In link (primaryLinks doc) ->
      includes (hrefOf link) "not-turned-in" = false ->
      shouldSkip (title (primaryRecord link)) (course (primaryRecord link)) = false ->
      P (primaryRecord link)) ->
  (forall item raw link,
      In item (cardItems doc) ->
      innerText (element item) = Some raw ->
      linkOfItem item = Some link ->
      shouldSkip (title (secondaryRecord (trim raw) link)) (trim raw) = false ->
      Q (secondaryRecord (trim raw) link)) ->
  (fst (primaryPass doc) <> [] /\ Forall P result)
  \/ (fst (primaryPass doc) = [] /\ Forall Q result).
Proof.
  unfold extract. intros H HP HQ.
  destruct (fst (primaryPass doc)) as [|a0 rest] eqn:Hfst; cbn [length Nat.eqb] in H.
  - right. split; [reflexivity|].
    destruct (secondaryPass doc (primaryPass doc)) as [st'|e] eqn:Hsec; [|discriminate].
    injection H as <-.
    eapply (scanItems_Forall Q); [exact HQ|exact Hsec|].
    rewrite Hfst. constructor.
  - left. split; [discriminate|]. injection H as <-. rewrite <- Hfst.
    apply (scanLinks_Forall P); [exact HP|constructor].
Qed.

(** X4: no record the extraction returns is one the classifier excludes.
    When the primary pass made the records, each passes [shouldSkip] on its
    title and course; when the secondary pass made them, each passes
    [shouldSkip] on its title with the whole card text in place of the
    group label, and has an empty course. *)
Theorem extracted_records_pass_the_filter (doc : Element) (result : list Assignment) :
  extract doc = Normal result ->
  (fst (primaryPass doc) <> []
   /\ Forall (fun a => shouldSkip (title a) (course a) = false) result)
  \/ (fst (primaryPass doc) = []
      /\ Forall (fun a => shouldSkip (title a) (text a) = false
                          /\ course a = EmptyString) result).
Proof.
  intros H.
  apply (extract_Forall _ _ doc result H).
  - intros link _ _ Hs. exact Hs.
  - intros item raw link _ _ _ Hs. split; [exact Hs|reflexivity].
Qed.

Lemma extracted_records_pass_the_filter_witness :
  extract filteredPage = Normal [chapterFourRecord]
  /\ ((fst (primaryPass filteredPage) <> []
       /\ Forall (fun a => shouldSkip (title a) (course a) = false) [chapterFourRecord])
      \/ (fst (primaryPass filteredPage) = []
          /\ Forall (fun a => shouldSkip (title a) (text a) = false
                              /\ course a = EmptyString) [chapterFourRecord])).
Proof.
  assert (H : extract filteredPage = Normal [chapterFourRecord]) by (vm_compute; reflexivity).
  split; [exact H|].
  apply (extracted_records_pass_the_filter filteredPage [chapterFourRecord] H).
Defined.

(** *** References *)

Lemma attrContains_href (sub : string) (link : Node) :
  attrContains "href" sub (element link) = true ->
  isEmpty sub = false ->
  includes (hrefOf link) sub = true.
Proof.
  unfold attrContains, hrefOf. intros H Hsub.
  destruct (getAttribute (element link) "href") as [v|]; [|discriminate].
  destruct v as [|c v]; [|exact H].
  destruct sub; [discriminate Hsub|discriminate H].
Qed.

Lemma fullUrlOf_absolute (href : string) : startsWith (fullUrlOf href) "http" = true.
Proof.
  unfold fullUrlOf. destruct (startsWith href "http") eqn:H; [exact H|reflexivity].
Qed.

Lemma fullUrlOf_keeps (href sub : string) :
  includes href sub = true -> includes (fullUrlOf href) sub = true.
Proof.
  unfold fullUrlOf. intros H.
  destruct (startsWith href "http"); [exact H|now apply includes_app_r].
Qed.

Lemma fullUrlOf_idempotent (href : string) : fullUrlOf (fullUrlOf href) = fullUrlOf href.
Proof.
  unfold fullUrlOf at 1. now rewrite fullUrlOf_absolute.
Qed.

Lemma primaryLinks_selected (doc : Element) (link : Node) :
  In link (primaryLinks doc) -> detailLinkSelector (element link) = true.
Proof.
  unfold primaryLinks, querySelectorAll. intros H.
  now apply List.filter_In in H as [_ H].
Qed.

Lemma linkOfItem_selected (item link : Node) :
  linkOfItem item = Some link -> anyDetailsSelector (element link) = true.
Proof.
  unfold linkOfItem, querySelector. intros H.
  now apply find_some in H as [_ H].
Qed.

(** X5: every record the extraction returns has a reference that starts
    with "http" and contains "/details"; in particular no record has an
    empty reference.  A reference is already in normal form: normalizing
    it again changes nothing. *)
Theorem extracted_references_are_absolute (doc : Element) (result : list Assignment) :
  extract doc = Normal result ->
  Forall (fun a => startsWith (url a) "http" = true
                   /\ includes (url a) "/details" = true
                   /\ url a <> EmptyString
                   /\ fullUrlOf (url a) = url a) result.
Proof.
  intros H.
  set (P := fun a : Assignment =>
              startsWith (url a) "http" = true /\ includes (url a) "/details" = true
              /\ url a <> EmptyString /\ fullUrlOf (url a) = url a).
  assert (Hurl : forall href, includes href "/details" = true -> P (mkAssignment
              EmptyString EmptyString (fullUrlOf href) EmptyString) ).
  { intros href Hd. unfold P. cbn [url].
    split; [apply fullUrlOf_absolute|]. split; [now apply fullUrlOf_keeps|].
    split; [|apply fullUrlOf_idempotent].
    intros Heq. pose proof (fullUrlOf_absolute href) as Habs.
    rewrite Heq in Habs. discriminate. }
  destruct (extract_Forall P P doc result H) as [[_ HF]|[_ HF]]; try exact HF.
  - intros link Hin _ _. apply (Hurl (hrefOf link)).
    apply attrContains_href; [|reflexivity].
    apply primaryLinks_selected in Hin. unfold detailLinkSelector in Hin.
    now apply andb_true_iff in Hin as [_ Hin].
  - intros item raw link _ _ Hlink _. apply (Hurl (hrefOf link)).
    apply attrContains_href; [|reflexivity].
    apply linkOfItem_selected in Hlink. unfold anyDetailsSelector in Hlink.
    now apply andb_true_iff in Hlink as [_ Hlink].
Qed.

Lemma extracted_references_are_absolute_witness :
  extract duplicatePage
  = Normal [ mkAssignment "Essay on rivers" EmptyString
                          "https://classroom.google.com/c/1/a/2/details" "Essay on rivers";
             mkAssignment "Essay on rivers, again" EmptyString
                          "https://classroom.google.com/c/1/a/2/details"
                          "Essay on rivers, again" ]
  /\ Forall (fun a => startsWith (url a) "http" = true
                      /\ includes (url a) "/details" = true
                      /\ url a <> EmptyString
                      /\ fullUrlOf (url a) = url a)
            [ mkAssignment "Essay on rivers" EmptyString
                           "https://classroom.google.com/c/1/a/2/details" "Essay on rivers";
              mkAssignment "Essay on rivers, again" EmptyString
                           "https://classroom.google.com/c/1/a/2/details"
                           "Essay on rivers, again" ].
Proof.
  assert (H : extract duplicatePage
              = Normal [ mkAssignment "Essay on rivers" EmptyString
                                      "https://classroom.google.com/c/1/a/2/details"
                                      "Essay on rivers";
                         mkAssignment "Essay on rivers, again" EmptyString
                                      "https://classroom.google.com/c/1/a/2/details"
                                      "Essay on rivers, again" ])
    by (vm_compute; reflexivity).
  split; [exact H|].
  apply (extracted_references_are_absolute duplicatePage _ H).
Defined.

(** *** Course labels *)

Lemma course_keyword_line_is_skipped (ttl line : string) :
  existsb (fun c => includes (toLowerCase line) c) IGNORE_COURSES = true ->
  shouldSkip ttl line = true.
Proof.
  intros H. apply existsb_exists in H as (kw & Hkw & Hin).
  apply (course_keyword_excludes kw ttl line Hkw).
  apply includes_combined. now right.
Qed.

(** X6: the course of a returned record is never a line that names an
    excluded course.  A record of the primary pass has either no course or,
    as course, a line of its card (trimmed, longer than 3 characters) that
    contains "Block" or "Period"; a record of the secondary pass has no
    course. *)
Theorem extracted_course_is_class_period_line (doc : Element) (result : list Assignment) :
  extract doc = Normal result ->
  Forall (fun a =>
            course a = EmptyString
            \/ (In (course a) (primaryLines (text a))
                /\ (includes (course a) "Block" = true
                    \/ includes (course a) "Period" = true)
                /\ existsb (fun c => includes (toLowerCase (course a)) c) IGNORE_COURSES
                   = false)) result.
Proof.
  intros H.
  match goal with |- Forall ?P0 result => set (P := P0) end.
  destruct (extract_Forall P P doc result H) as [[_ HF]|[_ HF]]; try exact HF.
  - intros link _ _ Hs. unfold P.
    unfold primaryRecord in *. cbn [title course text] in *.
    unfold courseOf in *.
    destruct (find isCourseLine (primaryLines (cardTextOf link))) as [l|] eqn:Hfind;
      [|now left].
    right. apply find_some in Hfind as [Hin Hline].
    split; [exact Hin|].
    destruct (existsb (fun c => includes (toLowerCase l) c) IGNORE_COURSES) eqn:Hkw.
    + rewrite (course_keyword_line_is_skipped _ l Hkw) in Hs. discriminate.
    + split; [|reflexivity]. unfold isCourseLine in Hline. rewrite Hkw in Hline.
      cbn [orb] in Hline. now apply orb_true_iff in Hline.
  - intros item raw link _ _ _ _. unfold P. now left.
Qed.

Lemma extracted_course_is_class_period_line_witness :
  extract periodPage
  = Normal [ mkAssignment "Essay on rivers" "Geography, Period 3"
                          "https://classroom.google.com/c/1/a/2/details"
                          ("Essay on rivers" +:+ nl +:+ "Geography, Period 3") ]
  /\ Forall (fun a =>
               course a = EmptyString
               \/ (In (course a) (primaryLines (text a))
                   /\ (includes (course a) "Block" = true
                       \/ includes (course a) "Period" = true)
                   /\ existsb (fun c => includes (toLowerCase (course a)) c) IGNORE_COURSES
                      = false))
            [ mkAssignment "Essay on rivers" "Geography, Period 3"
                           "https://classroom.google.com/c/1/a/2/details"
                           ("Essay on rivers" +:+ nl +:+ "Geography, Period 3") ].
Proof.
  assert (H : extract periodPage
              = Normal [ mkAssignment "Essay on rivers" "Geography, Period 3"
                                      "https://classroom.google.com/c/1/a/2/details"
                                      ("Essay on rivers" +:+ nl +:+ "Geography, Period 3") ])
    by (vm_compute; reflexivity).
  split; [exact H|].
  apply (extracted_course_is_class_period_line periodPage _ H).
Defined.

(** ** Generation client: requests, results and errors *)

Lemma consoleOf_app (ev ev' : list Event) :
  consoleOf (ev ++ ev') = consoleOf ev ++ consoleOf ev'.
Proof. apply List.filter_app. Qed.

Lemma consoleOf_lines (msgs : list string) :
  consoleOf (map consoleLine msgs) = map consoleLine msgs.
Proof. induction msgs as [|m msgs IH]; [reflexivity|]. simpl. now rewrite IH. Qed.

Lemma fetchesOf_lines (msgs : list string) : fetchesOf (map consoleLine msgs) = [].
Proof. induction msgs as [|m msgs IH]; [reflexivity|]. exact IH. Qed.

Section EndpointTrace.

Variable textOf : JSON -> option JSON.
Variable label : string.

Lemma attemptResult_some (answer : FetchResult) (t : string) :
  resultText (attemptResult textOf answer) = Some t ->
  attemptResult textOf answer = Normal (Some t)
  /\ exists data s,
      answer = Response true (Some data)
      /\ textOf data = Some (JStr s) /\ t = trim s /\ isEmpty t = false.
Proof.
  destruct answer as [msg|ok body]; [discriminate|].
  destruct ok; [|discriminate].
  destruct body as [data|]; [|discriminate].
  cbn [attemptResult].
  destruct (textOf data) as [v|] eqn:Hv; [|discriminate].
  destruct v as [|b|q|s|items|fields]; try discriminate.
  - destruct b; discriminate.
  - cbn [truthy]. destruct (negb (Qeq_bool q 0)); discriminate.
  - destruct (isEmpty s); [discriminate|].
    destruct (isEmpty (trim s)) eqn:Ht; [discriminate|].
    intros [= <-]. split; [reflexivity|]. exists data, s. auto.
Qed.

Lemma throws_is_thrown (answer : FetchResult) :
  EndpointThrows textOf answer -> exists e, attemptResult textOf answer = Throw e.
Proof.
  intros [msg| |data v Hv Htruthy Hstr]; cbn [attemptResult]; eauto.
  rewrite Hv. destruct v as [|b|q|s|items|fields]; rewrite ?Htruthy; eauto.
  now contradiction (Hstr s).
Qed.

(** The trace of the loop over the endpoints. *)
Lemma tryEach_trace (reqs : list Request) :
  forall w : World,
  exists r sf ev n,
    tryEach textOf label reqs w = (Normal r, extend w sf ev)
    /\ fetchesOf ev = firstn n reqs
    /\ n <= length reqs
    /\ (reqs <> [] -> 1 <= n)
    /\ (r = None -> n = length reqs)
    /\ (forall t, r = Some t ->
          exists req hist data s,
            nth_error reqs (n - 1) = Some req
            /\ network w hist req = Response true (Some data)
            /\ textOf data = Some (JStr s) /\ t = trim s /\ isEmpty t = false)
    /\ ((forall hist req, In req reqs -> EndpointThrows textOf (network w hist req)) ->
        r = None /\ length (consoleOf ev) = length reqs).
Proof.
  induction reqs as [|req reqs IH]; intros w.
  - exists None, (sfLog w), [], 0. rewrite extend_nil.
    repeat split; auto; try discriminate. intros Hc; now contradiction Hc.
  - cbn [tryEach]. rewrite bind_run, guarded_run. cbv zeta.
    set (c := attemptResult textOf (network w (events w) req)).
    destruct (resultText c) as [t|] eqn:Hc.
    + destruct (attemptResult_some _ t Hc) as [Hnormal (data & s & Hans & Htxt & Ht & Hne)].
      fold c in Hnormal. rewrite Hnormal. cbn [errorLines map logAfter ret].
      exists (Some t), (sfLog w), [Fetch req], 1.
      split; [reflexivity|]. split; [reflexivity|].
      split; [simpl; lia|]. split; [lia|]. split; [discriminate|]. split.
      * intros t' [= <-]. exists req, (events w), data, s. auto.
      * intros Hall. destruct (throws_is_thrown _ (Hall (events w) req (or_introl eq_refl)))
          as [e He]. fold c in He. rewrite He in Hnormal. discriminate.
    + destruct (IH (extend w (logAfter (sfLog w) (errorLines label c))
                           (Fetch req :: map consoleLine (errorLines label c))))
        as (r & sf & ev & n & Hrun & Hfetch & Hle & Hpos & Hnone & Hsome & Hthrow).
      rewrite Hrun, extend_extend.
      exists r, sf, ((Fetch req :: map consoleLine (errorLines label c)) ++ ev), (S n).
      split; [reflexivity|]. split.
      { rewrite fetchesOf_app. cbn [fetchesOf flat_map app firstn].
        change (flat_map _ (map consoleLine (errorLines label c)))
          with (fetchesOf (map consoleLine (errorLines label c))).
        now rewrite fetchesOf_lines, Hfetch. }
      split; [simpl; lia|]. split; [lia|].
      split; [intros Hr; simpl; now rewrite (Hnone Hr)|]. split.
      * intros t Ht. destruct (Hsome t Ht) as (req' & hist & data & s & Hnth & Hrest).
        exists req', hist, data, s. split; [|exact Hrest].
        assert (Hn : 1 <= n).
        { apply Hpos. intros ->. destruct (n - 1); discriminate Hnth. }
        replace (S n - 1) with (S (n - 1)) by lia. exact Hnth.
      * intros Hall.
        destruct Hthrow as [Hr Hlen].
        { intros hist req' Hin. apply Hall. now right. }
        split; [exact Hr|].
        destruct (throws_is_thrown _ (Hall (events w) req (or_introl eq_refl))) as [e He].
        fold c in He. rewrite He. cbn [errorLines map].
        rewrite consoleOf_app. cbn. now rewrite Hlen.
Qed.

End EndpointTrace.

Lemma endpointRequests_two (cfg : Config) (prompt : string) :
  length (endpointRequests cfg prompt) = 2.
Proof. unfold endpointRequests. destruct (String.eqb _ _); reflexivity. Qed.

(** X8: one call of [callLLM] contacts the configured endpoints in their
    order, each at most once: the requests it issues are a non-empty
    initial part of the endpoint list (one or two requests), and all of it
    when the call returns [null]. *)
Theorem callLLM_requests_in_order (cfg : Config) (prompt : string) (w : World) :
  exists r sf ev n,
    callLLM cfg prompt w = (Normal r, extend w sf ev)
    /\ fetchesOf ev = firstn n (endpointRequests cfg prompt)
    /\ 1 <= n <= 2
    /\ (r = None -> fetchesOf ev = endpointRequests cfg prompt).
Proof.
  rewrite callLLM_tryEach.
  destruct (tryEach_trace (textOf cfg) (providerLabel cfg) (endpointRequests cfg prompt) w)
    as (r & sf & ev & n & Hrun & Hfetch & Hle & Hpos & Hnone & _).
  pose proof (endpointRequests_two cfg prompt) as Hlen.
  exists r, sf, ev, n. split; [exact Hrun|]. split; [exact Hfetch|]. split.
  - split; [|lia]. apply Hpos. intros Hnil. rewrite Hnil in Hlen. discriminate.
  - intros Hr. rewrite Hfetch, (Hnone Hr). apply firstn_all.
Qed.

(** X9: a draft returned by [callLLM] is never made up: it is the trimmed
    text of a success response that the network gave to the last endpoint
    contacted; it is not empty and has no white space around it. *)
Theorem callLLM_draft_is_endpoint_text (cfg : Config) (prompt : string) (w : World)
        (t : string) :
  fst (callLLM cfg prompt w) = Normal (Some t) ->
  isEmpty t = false
  /\ trim t = t
  /\ exists n req hist data s,
      fetchesOf (events (snd (callLLM cfg prompt w)))
      = fetchesOf (events w) ++ firstn n (endpointRequests cfg prompt)
      /\ nth_error (endpointRequests cfg prompt) (n - 1) = Some req
      /\ 1 <= n
      /\ network w hist req = Response true (Some data)
      /\ textOf cfg data = Some (JStr s)
      /\ t = trim s.
Proof.
  rewrite callLLM_tryEach.
  destruct (tryEach_trace (textOf cfg) (providerLabel cfg) (endpointRequests cfg prompt) w)
    as (r & sf & ev & n & Hrun & Hfetch & Hle & Hpos & _ & Hsome & _).
  rewrite Hrun. cbn [fst snd]. intros [= ->].
  destruct (Hsome t eq_refl) as (req & hist & data & s & Hnth & Hans & Htxt & Ht & Hne).
  split; [exact Hne|]. split; [rewrite Ht; apply trim_idempotent|].
  exists n, req, hist, data, s.
  split; [cbn [events extend]; now rewrite fetchesOf_app, Hfetch|].
  split; [exact Hnth|]. split; [|auto].
  apply Hpos. intros Hnil. rewrite Hnil in Hnth. destruct (n - 1); discriminate Hnth.
Qed.

Lemma callLLM_draft_is_endpoint_text_witness :
  fst (callLLM geminiConfig (promptFor chapterFourRecord) fallbackWorld) = Normal (Some "hi")
  /\ isEmpty "hi" = false
  /\ trim "hi" = "hi"
  /\ exists n req hist data s,
      fetchesOf (events (snd (callLLM geminiConfig (promptFor chapterFourRecord)
                                      fallbackWorld)))
      = fetchesOf (events fallbackWorld)
        ++ firstn n (endpointRequests geminiConfig (promptFor chapterFourRecord))
      /\ nth_error (endpointRequests geminiConfig (promptFor chapterFourRecord)) (n - 1)
         = Some req
      /\ 1 <= n
      /\ network fallbackWorld hist req = Response true (Some data)
      /\ textOf geminiConfig data = Some (JStr s)
      /\ "hi" = trim s.
Proof.
  assert (H : fst (callLLM geminiConfig (promptFor chapterFourRecord) fallbackWorld)
              = Normal (Some "hi")) by (vm_compute; reflexivity).
  split; [exact H|].
  apply (callLLM_draft_is_endpoint_text geminiConfig (promptFor chapterFourRecord)
                                        fallbackWorld "hi" H).
Defined.

(** X10: when the first endpoint answers with a text that is not blank,
    [callLLM] returns that text trimmed after this one request: the
    fallback endpoint is not contacted and nothing is logged. *)
Theorem callLLM_first_endpoint_suffices
        (cfg : Config) (prompt : string) (w : World) (req : Request)
        (data : JSON) (t : string) :
  nth_error (endpointRequests cfg prompt) 0 = Some req ->
  network w (events w) req = Response true (Some data) ->
  textOf cfg data = Some (JStr t) ->
  trim t <> EmptyString ->
  callLLM cfg prompt w = (Normal (Some (trim t)), extend w (sfLog w) [Fetch req]).
Proof.
  intros Hreq Hans Htxt Hblank.
  destruct (not_blank_not_empty t Hblank) as [He Het].
  rewrite callLLM_tryEach.
  destruct (endpointRequests cfg prompt) as [|req0 rest]; [discriminate|].
  injection Hreq as ->.
  cbn [tryEach]. rewrite bind_run, guarded_run, Hans.
  cbn [attemptResult]. rewrite Htxt, He, Het. reflexivity.
Qed.

Lemma callLLM_first_endpoint_suffices_witness :
  nth_error (endpointRequests geminiConfig (promptFor chapterFourRecord)) 0
  = Some firstRequest
  /\ network (todoWorld filteredPage [] (primaryAnswers " A draft. "))
             (events (todoWorld filteredPage [] (primaryAnswers " A draft. "))) firstRequest
     = Response true (Some (geminiBody " A draft. "))
  /\ textOf geminiConfig (geminiBody " A draft. ") = Some (JStr " A draft. ")
  /\ trim " A draft. " <> EmptyString
  /\ callLLM geminiConfig (promptFor chapterFourRecord)
             (todoWorld filteredPage [] (primaryAnswers " A draft. "))
     = (Normal (Some (trim " A draft. ")),
        extend (todoWorld filteredPage [] (primaryAnswers " A draft. "))
               (sfLog (todoWorld filteredPage [] (primaryAnswers " A draft. ")))
               [Fetch firstRequest]).
Proof.
  assert (H1 : nth_error (endpointRequests geminiConfig (promptFor chapterFourRecord)) 0
               = Some firstRequest) by reflexivity.
  assert (H2 : network (todoWorld filteredPage [] (primaryAnswers " A draft. "))
                       (events (todoWorld filteredPage [] (primaryAnswers " A draft. ")))
                       firstRequest
               = Response true (Some (geminiBody " A draft. "))) by reflexivity.
  assert (H3 : textOf geminiConfig (geminiBody " A draft. ") = Some (JStr " A draft. "))
    by reflexivity.
  assert (H4 : trim " A draft. " <> EmptyString) by (vm_compute; discriminate).
  repeat (split; [assumption|]).
  apply (callLLM_first_endpoint_suffices geminiConfig (promptFor chapterFourRecord)
           (todoWorld filteredPage [] (primaryAnswers " A draft. ")) firstRequest
           (geminiBody " A draft. ") " A draft. " H1 H2 H3 H4).
Defined.

(** X11: a broken answer never crashes the client.  When every configured
    endpoint meets a rejected request, a success whose body is not JSON, or
    a success whose extracted text is a truthy value that is not a string
    (so that [text.trim] is no function), [callLLM] still returns [null],
    after contacting every endpoint once and printing one error line per
    endpoint on the console. *)
Theorem callLLM_absorbs_broken_answers (cfg : Config) (prompt : string) (w : World) :
  (forall hist req, In req (endpointRequests cfg prompt) ->
                    EndpointThrows (textOf cfg) (network w hist req)) ->
  exists sf ev,
    callLLM cfg prompt w = (Normal None, extend w sf ev)
    /\ fetchesOf ev = endpointRequests cfg prompt
    /\ length (consoleOf ev) = 2
    /\ pipelineEvents ev = [].
Proof.
  intros Hall. rewrite callLLM_tryEach.
  destruct (tryEach_trace (textOf cfg) (providerLabel cfg) (endpointRequests cfg prompt) w)
    as (r & sf & ev & n & Hrun & Hfetch & _ & _ & Hnone & _ & Hthrow).
  destruct (Hthrow Hall) as [-> Hlen].
  destruct (tryEach_run (textOf cfg) (providerLabel cfg) (endpointRequests cfg prompt) w)
    as (r' & sf' & ev' & Hrun' & Hquiet & _).
  rewrite Hrun in Hrun'.
  assert (Hev : ev = ev').
  { apply (f_equal (fun p => events (snd p))) in Hrun'. cbn [snd events extend] in Hrun'.
    now apply app_inv_head in Hrun'. }
  exists sf, ev. split; [exact Hrun|].
  split; [rewrite Hfetch, (Hnone eq_refl); apply firstn_all|].
  split; [now rewrite Hlen, endpointRequests_two|].
  now rewrite Hev.
Qed.

Lemma callLLM_absorbs_broken_answers_witness :
  (forall hist req,
      In req (endpointRequests geminiConfig "Write about rivers") ->
      EndpointThrows (textOf geminiConfig)
                     (network (todoWorld filteredPage [] brokenAnswers) hist req))
  /\ exists sf ev,
      callLLM geminiConfig "Write about rivers" (todoWorld filteredPage [] brokenAnswers)
      = (Normal None, extend (todoWorld filteredPage [] brokenAnswers) sf ev)
      /\ fetchesOf ev = endpointRequests geminiConfig "Write about rivers"
      /\ length (consoleOf ev) = 2
      /\ pipelineEvents ev = [].
Proof.
  assert (H : forall hist req,
             In req (endpointRequests geminiConfig "Write about rivers") ->
             EndpointThrows (textOf geminiConfig)
                            (network (todoWorld filteredPage [] brokenAnswers) hist req)).
  { intros hist req [<-|[<-|[]]].
    - apply throws_network.
    - apply (throws_not_string _ numberBody (JNum (5 # 1)));
        [reflexivity|reflexivity|discriminate]. }
  split; [exact H|].
  apply (callLLM_absorbs_broken_answers geminiConfig "Write about rivers"
                                        (todoWorld filteredPage [] brokenAnswers) H).
Defined.

(** ** The log: what a run does to the world *)

Lemma logAfter_app (sf : option (list string)) (a b : list string) :
  logAfter (logAfter sf a) b = logAfter sf (a ++ b).
Proof.
  destruct a as [|x a]; [reflexivity|].
  destruct b as [|y b]; simpl; [now rewrite app_nil_r|].
  now rewrite <- app_assoc.
Qed.

Lemma Appends_refl (w : World) : Appends w w.
Proof. exists [], []. simpl. now rewrite extend_nil. Qed.

Lemma Appends_trans (w1 w2 w3 : World) : Appends w1 w2 -> Appends w2 w3 -> Appends w1 w3.
Proof.
  unfold Appends. intros (m1 & e1 & Hw2 & H1) (m2 & e2 & Hw3 & H2). subst w2 w3.
  exists (m1 ++ m2), (e1 ++ e2). split.
  - cbn [sfLog extend]. now rewrite extend_extend, logAfter_app.
  - now rewrite consoleOf_app, map_app, H1, H2.
Qed.

Lemma Appending_ret {A : Type} (a : A) : Appending (ret a).
Proof. intros w. apply Appends_refl. Qed.

Lemma Appending_throw {A : Type} (e : JSError) : Appending (@throw A e).
Proof. intros w. apply Appends_refl. Qed.

Lemma Appending_bind {A B : Type} (c : M A) (k : A -> M B) :
  Appending c -> (forall a, Appending (k a)) -> Appending (bind c k).
Proof.
  intros Hc Hk w. unfold bind. specialize (Hc w).
  destruct (c w) as [[a|e] w1]; cbn [snd] in *; [|exact Hc].
  eapply Appends_trans; [exact Hc|apply Hk].
Qed.


Lemma Appending_emit (e : Event) :
  (forall line, e <> Console line) -> Appending (emit e).
Proof.
  intros He w. exists [], [e]. split; [reflexivity|].
  destruct e; try reflexivity. now contradiction (He line).
Qed.

Lemma Appending_log (msg : string) : Appending (log msg).
Proof. intros w. rewrite log_run. exists [msg], [consoleLine msg]. auto. Qed.

Lemma Appending_setStatus (msg : string) : Appending (setStatus msg).
Proof.
  apply Appending_bind; [apply Appending_emit; discriminate|intros _; apply Appending_log].
Qed.

Lemma Appending_addResult (html : string) : Appending (addResult html).
Proof. apply Appending_emit. discriminate. Qed.

Lemma Appending_sleep (ms : nat) : Appending (sleep ms).
Proof. apply Appending_emit. discriminate. Qed.

Lemma Appending_attemptEndpoint (textOf : JSON -> option JSON) (req : Request) :
  Appending (attemptEndpoint textOf req).
Proof.
  intros w. rewrite attemptEndpoint_run. exists [], [Fetch req]. auto.
Qed.

Create HintDb appending.
#[local] Hint Resolve Appending_ret Appending_throw Appending_log Appending_setStatus
  Appending_addResult Appending_sleep Appending_attemptEndpoint : appending.










(** ** The run: redirect, budget, total failure, final status *)

Lemma startsWith_longer (s p q : string) :
  startsWith s (p +:+ q) = true -> startsWith s p = true.
Proof.
  revert s. induction p as [|c p IH]; intros s H; [apply startsWith_empty|].
  destruct s as [|d s]; [discriminate|]. simpl in *.
  apply andb_true_iff in H as [Hc Hs]. now rewrite Hc, (IH s Hs).
Qed.

Lemma includes_longer (s p q : string) :
  includes s (p +:+ q) = true -> includes s p = true.
Proof.
  induction s as [|c s IH]; intros H; rewrite includes_unfold in H; rewrite includes_unfold.
  - rewrite orb_false_r in *. now apply startsWith_longer in H.
  - apply orb_true_iff in H as [H|H].
    + now rewrite (startsWith_longer _ _ _ H).
    + rewrite (IH H). apply orb_true_r.
Qed.

Lemma scanLiveTodo_elsewhere (w : World) :
  includes (location w) "/a/" = false ->
  scanLiveTodo w =
  (Normal None,
   extend w (logAfter (sfLog w) ["Scanning To-do page..."])
          [ Status "Scanning To-do page..."; consoleLine "Scanning To-do page...";
            Navigate TODO_URL ]).
Proof.
  intros Hloc. unfold scanLiveTodo.
  rewrite bind_run, setStatus_run. cbn [location extend].
  assert (Hlong : includes (location w) "/a/not-turned-in" = false).
  { destruct (includes (location w) "/a/not-turned-in") eqn:H; [|reflexivity].
    apply (includes_longer _ "/a/" "not-turned-in") in H. congruence. }
  rewrite Hloc, Hlong. cbn [negb andb]. run_browser. reflexivity.
Qed.


(** X7: the extractor signals "not ready" exactly when the current address
    does not contain "/a/".  In that case the pipeline navigates to the
    to-do address and reports the redirect, and does nothing else: no
    settle delay, no look at the document, no request.  The to-do address
    itself passes the test. *)
Theorem not_ready_redirects (cfg : Config) (w : World) :
  (fst (scanLiveTodo w) = Normal None <-> includes (location w) "/a/" = false)
  /\ (includes (location w) "/a/" = false ->
      pipeline cfg w =
      (Normal tt,
       extend w
              (logAfter (sfLog w)
                 [ "Scanning To-do page...";
                   "Redirecting to To-do page... Click bookmarklet again after page loads." ])
              [ Status "Scanning To-do page..."; consoleLine "Scanning To-do page...";
                Navigate TODO_URL;
                Status "Redirecting to To-do page... Click bookmarklet again after page loads.";
                consoleLine
                  "Redirecting to To-do page... Click bookmarklet again after page loads." ]))
  /\ includes TODO_URL "/a/" = true.
Proof.
  split; [|split; [|reflexivity]].
  - split.
    + intros H. destruct (includes (location w) "/a/") eqn:Hloc; [|reflexivity].
      rewrite (scanLiveTodo_on_todo_page w Hloc) in H. cbn [fst] in H.
      destruct (extract (document w)); discriminate.
    + intros Hloc. now rewrite (scanLiveTodo_elsewhere w Hloc).
  - intros Hloc. unfold pipeline.
    rewrite bind_run, (scanLiveTodo_elsewhere w Hloc). run_browser.
    cbn [sfLog extend]. rewrite logAfter_app. reflexivity.
Qed.

Lemma not_ready_redirects_witness :
  includes (location (initialWorld "https://classroom.google.com/u/0/h" duplicatePage []
                                   nothingAnswers)) "/a/" = false
  /\ events (snd (pipeline geminiConfig
                           (initialWorld "https://classroom.google.com/u/0/h" duplicatePage []
                                         nothingAnswers)))
     = [ Status "Scanning To-do page..."; consoleLine "Scanning To-do page...";
         Navigate TODO_URL;
         Status "Redirecting to To-do page... Click bookmarklet again after page loads.";
         consoleLine "Redirecting to To-do page... Click bookmarklet again after page loads." ].
Proof.
  assert (H : includes (location (initialWorld "https://classroom.google.com/u/0/h"
                                               duplicatePage [] nothingAnswers)) "/a/" = false)
    by (vm_compute; reflexivity).
  split; [exact H|].
  destruct (not_ready_redirects geminiConfig
              (initialWorld "https://classroom.google.com/u/0/h" duplicatePage []
                            nothingAnswers)) as [_ [Hrun _]].
  rewrite (Hrun H). reflexivity.
Defined.

(** *** Requests per record *)

Lemma callLLM_trace (cfg : Config) (prompt : string) (w : World) :
  exists r sf ev n,
    callLLM cfg prompt w = (Normal r, extend w sf ev)
    /\ pipelineEvents ev = []
    /\ fetchesOf ev = firstn n (endpointRequests cfg prompt)
    /\ 1 <= n <= 2
    /\ ((forall hist req, In req (endpointRequests cfg prompt) ->
                          EndpointFails (textOf cfg) (network w hist req)) ->
        r = None /\ fetchesOf ev = endpointRequests cfg prompt).
Proof.
  rewrite callLLM_tryEach.
  destruct (tryEach_trace (textOf cfg) (providerLabel cfg) (endpointRequests cfg prompt) w)
    as (r & sf & ev & n & Hrun & Hfetch & Hle & Hpos & Hnone & _).
  destruct (tryEach_run (textOf cfg) (providerLabel cfg) (endpointRequests cfg prompt) w)
    as (r' & sf' & ev' & Hrun' & Hquiet & Hfail).
  rewrite Hrun in Hrun'.
  assert (Hr : r = r') by (injection Hrun' as Hr _; exact Hr).
  assert (Hev : ev = ev').
  { apply (f_equal (fun p => events (snd p))) in Hrun'. cbn [snd events extend] in Hrun'.
    now apply app_inv_head in Hrun'. }
  subst r' ev'.
  pose proof (endpointRequests_two cfg prompt) as Hlen.
  exists r, sf, ev, n. split; [exact Hrun|]. split; [exact Hquiet|].
  split; [exact Hfetch|]. split.
  - split; [|lia]. apply Hpos. intros Hnil. rewrite Hnil in Hlen. discriminate.
  - intros Hall.
    assert (Hr : r = None).
    { apply Hfail. intros hist req Hin. apply fails_no_text, Hall, Hin. }
    split; [exact Hr|]. rewrite Hfetch, (Hnone Hr). apply firstn_all.
Qed.

Lemma fetchesOf_pipeline_free (ev : list Event) :
  fetchesOf (List.filter (fun e => negb (isPipelineEvent e)) ev) = fetchesOf ev.
Proof.
  induction ev as [|e ev IH]; [reflexivity|].
  destruct e; simpl; rewrite ?IH; try reflexivity; exact IH.
Qed.

Lemma draftOne_trace (cfg : Config) (N i : nat) (a : Assignment) (w : World) :
  exists draft sf ev n,
    draftOne cfg N i a w = (Normal tt, extend w sf ev)
    /\ pipelineEvents ev = recordBlock N (i, a, draft)
    /\ fetchesOf ev = firstn n (endpointRequests cfg (promptFor a))
    /\ 1 <= n <= 2
    /\ ((forall hist req, In req (endpointRequests cfg (promptFor a)) ->
                          EndpointFails (textOf cfg) (network w hist req)) ->
        draft = None /\ fetchesOf ev = endpointRequests cfg (promptFor a)).
Proof.
  unfold draftOne, generateDraft, bind.
  rewrite setStatus_run, addResult_run, extend_extend.
  match goal with
  | |- context [callLLM cfg (promptFor a) ?w0] =>
      destruct (callLLM_trace cfg (promptFor a) w0)
        as (draft & sf1 & ev1 & n & Hrun & Hquiet & Hfetch & Hn & Hfail)
  end.
  rewrite Hrun, extend_extend.
  match goal with
  | |- context [reportOutcome a draft ?w0] =>
      destruct (reportOutcome_run a draft w0) as (sf2 & ev2 & Hrep & Hev2);
      assert (Hf2 : fetchesOf ev2 = [])
  end.
  { clear - Hrep. unfold reportOutcome in Hrep.
    destruct (truthy (option_map JStr draft)).
    - unfold bind in Hrep. rewrite addResult_run, log_run, extend_extend in Hrep.
      apply (f_equal (fun p => events (snd p))) in Hrep. cbn [snd events extend] in Hrep.
      apply app_inv_head in Hrep. now subst ev2.
    - rewrite addResult_run in Hrep.
      apply (f_equal (fun p => events (snd p))) in Hrep. cbn [snd events extend] in Hrep.
      apply app_inv_head in Hrep. now subst ev2. }
  rewrite Hrep, extend_extend.
  exists draft. unfold recordBlock.
  destruct (i <? N - 1).
  - rewrite sleep_run, extend_extend. eexists _, _, n. split; [reflexivity|].
    split; [rewrite !pipelineEvents_app, Hquiet, Hev2; reflexivity|].
    assert (Hall : fetchesOf (([Status (startingStatus N i a);
                                consoleLine (startingStatus N i a)]
                               ++ [Result (headerHtml i a)]) ++ ev1 ++ ev2 ++ [Sleep 2000])
                   = fetchesOf ev1).
    { rewrite !fetchesOf_app, Hf2. cbn. now rewrite !app_nil_r. }
    rewrite <- !app_assoc in *. rewrite Hall.
    split; [exact Hfetch|]. split; [exact Hn|exact Hfail].
  - eexists _, _, n. split; [reflexivity|].
    split; [rewrite !pipelineEvents_app, Hquiet, Hev2; reflexivity|].
    assert (Hall : fetchesOf (([Status (startingStatus N i a);
                                consoleLine (startingStatus N i a)]
                               ++ [Result (headerHtml i a)]) ++ ev1 ++ ev2)
                   = fetchesOf ev1).
    { rewrite !fetchesOf_app, Hf2. cbn. now rewrite !app_nil_r. }
    rewrite <- !app_assoc in *. rewrite Hall.
    split; [exact Hfetch|]. split; [exact Hn|exact Hfail].
Qed.

Lemma draftLoop_trace (cfg : Config) (N : nat) (rest : list Assignment) :
  forall (i : nat) (w : World),
  exists drafts sf ev,
    length drafts = length rest
    /\ draftLoop cfg N i rest w = (Normal tt, extend w sf ev)
    /\ pipelineEvents ev
       = flat_map (recordBlock N) (combine (combine (seq i (length rest)) rest) drafts)
    /\ length rest <= length (fetchesOf ev) <= 2 * length rest
    /\ ((forall hist req, EndpointFails (textOf cfg) (network w hist req)) ->
        drafts = repeat None (length rest)
        /\ fetchesOf ev = flat_map (fun a => endpointRequests cfg (promptFor a)) rest).
Proof.
  induction rest as [|a rest IH]; intros i w.
  - exists [], (sfLog w), []. rewrite extend_nil. simpl. repeat split; auto.
  - cbn [draftLoop]. rewrite bind_run.
    destruct (draftOne_trace cfg N i a w)
      as (draft & sf1 & ev1 & n & Hone & Hev1 & Hf1 & Hn & Hfail1).
    rewrite Hone.
    destruct (IH (S i) (extend w sf1 ev1))
      as (drafts & sf2 & ev2 & Hlen & Hloop & Hev2 & Hbud & Hfail2).
    rewrite Hloop, extend_extend.
    exists (draft :: drafts), sf2, (ev1 ++ ev2).
    split; [simpl; now rewrite Hlen|]. split; [reflexivity|].
    split; [rewrite pipelineEvents_app, Hev1, Hev2; reflexivity|].
    pose proof (endpointRequests_two cfg (promptFor a)) as Htwo.
    assert (Hl1 : length (fetchesOf ev1) = n).
    { rewrite Hf1, length_firstn. lia. }
    split.
    + rewrite fetchesOf_app, length_app, Hl1. simpl. lia.
    + intros Hall.
      destruct Hfail1 as [-> Hreqs]; [intros hist req _; apply Hall|].
      destruct Hfail2 as [-> Hrest]; [intros hist req; apply Hall|].
      split; [reflexivity|].
      rewrite fetchesOf_app, Hreqs, Hrest. reflexivity.
Qed.


Lemma results_of_failures (N : nat) (rest : list Assignment) :
  forall i : nat,
    resultsOf (flat_map (recordBlock N)
                        (combine (combine (seq i (length rest)) rest)
                                 (repeat None (length rest))))
    = flat_map (fun entry => [headerHtml (fst entry) (snd entry); failureHtml])
               (combine (seq i (length rest)) rest).
Proof.
  induction rest as [|a rest IH]; intros i; [reflexivity|].
  cbn [length seq combine repeat flat_map].
  rewrite resultsOf_app, resultsOf_block, (IH (S i)). reflexivity.
Qed.

(** X14: a generation failure is local to its record.  When no endpoint
    ever gives a usable answer, the loop still runs to its end: every
    record, in order, gets its header followed by the failure block, and
    costs exactly the two requests of its prompt. *)
Theorem draftLoop_survives_total_failure
        (cfg : Config) (assignments : list Assignment) (w : World) :
  (forall hist req, EndpointFails (textOf cfg) (network w hist req)) ->
  exists sf ev,
    draftLoop cfg (length assignments) 0 assignments w = (Normal tt, extend w sf ev)
    /\ resultsOf ev
       = flat_map (fun entry => [headerHtml (fst entry) (snd entry); failureHtml])
                  (combine (seq 0 (length assignments)) assignments)
    /\ fetchesOf ev
       = flat_map (fun a => endpointRequests cfg (promptFor a)) assignments.
Proof.
  intros Hall.
  destruct (draftLoop_trace cfg (length assignments) assignments 0 w)
    as (drafts & sf & ev & _ & Hrun & Hev & _ & Hfail).
  destruct (Hfail Hall) as [-> Hfetch].
  exists sf, ev. split; [exact Hrun|]. split; [|exact Hfetch].
  rewrite <- resultsOf_pipelineEvents, Hev. apply results_of_failures.
Qed.

Lemma draftLoop_survives_total_failure_witness :
  (forall hist req,
      EndpointFails (textOf geminiConfig)
                    (network (todoWorld duplicatePage [] nothingAnswers) hist req))
  /\ exists sf ev,
      draftLoop geminiConfig (length [chapterFourRecord; chapterFourRecord]) 0
                [chapterFourRecord; chapterFourRecord]
                (todoWorld duplicatePage [] nothingAnswers)
      = (Normal tt, extend (todoWorld duplicatePage [] nothingAnswers) sf ev)
      /\ resultsOf ev
         = flat_map (fun entry => [headerHtml (fst entry) (snd entry); failureHtml])
                    (combine (seq 0 (length [chapterFourRecord; chapterFourRecord]))
                             [chapterFourRecord; chapterFourRecord])
      /\ fetchesOf ev
         = flat_map (fun a => endpointRequests geminiConfig (promptFor a))
                    [chapterFourRecord; chapterFourRecord].
Proof.
  assert (H : forall hist req,
             EndpointFails (textOf geminiConfig)
                           (network (todoWorld duplicatePage [] nothingAnswers) hist req))
    by (intros hist req; apply fails_status).
  split; [exact H|].
  apply (draftLoop_survives_total_failure geminiConfig
           [chapterFourRecord; chapterFourRecord]
           (todoWorld duplicatePage [] nothingAnswers) H).
Defined.

(** *** How a run ends *)




(** ** The prompt and the outcome block *)







(** ** Extraction: order, completeness and the unguarded read *)

Lemma scanLinks_sublist (links : list Node) :
  forall (acc : list Assignment) (seen : gset string),
  exists srcs,
    fst (fold_left scanLink links (acc, seen)) = acc ++ map primaryRecord srcs
    /\ sublist srcs links.
Proof.
  induction links as [|link links IH]; intros acc seen.
  - exists []. simpl. rewrite app_nil_r. split; [reflexivity|constructor].
  - cbn [fold_left].
    destruct (scanLink_cases acc seen link)
      as [[Heq _]|(_ & _ & [Heq|[Heq _]])]; rewrite Heq.
    + destruct (IH acc seen) as (srcs & Hacc & Hsub).
      exists srcs. split; [exact Hacc|now constructor].
    + destruct (IH (acc ++ [primaryRecord link]) ({[ hrefOf link ]} ∪ seen))
        as (srcs & Hacc & Hsub).
      exists (link :: srcs). split; [|now constructor].
      rewrite Hacc, <- app_assoc. reflexivity.
    + destruct (IH acc ({[ hrefOf link ]} ∪ seen)) as (srcs & Hacc & Hsub).
      exists srcs. split; [exact Hacc|now constructor].
Qed.




Lemma scanLinks_keeps_acc (links : list Node) (acc : list Assignment) (seen : gset string)
      (a : Assignment) :
  In a acc -> In a (fst (fold_left scanLink links (acc, seen))).
Proof.
  intros Ha. destruct (scanLinks_sublist links acc seen) as (srcs & -> & _).
  apply in_or_app. now left.
Qed.

Lemma scanLinks_complete (links : list Node) (h : string) (l : Node) :
  forall (acc : list Assignment) (seen : gset string),
    h ∉ seen ->
    firstLinkWith h links = Some l ->
    includes h "not-turned-in" = false ->
    shouldSkip (title (primaryRecord l)) (course (primaryRecord l)) = false ->
    In (primaryRecord l) (fst (fold_left scanLink links (acc, seen))).
Proof.
  induction links as [|link links IH]; intros acc seen Hfresh Hfind Hntl Hkeep;
    [discriminate|].
  unfold firstLinkWith in Hfind. cbn [find fold_left] in *.
  destruct (String.eqb (hrefOf link) h) eqn:Hh.
  - injection Hfind as ->. apply String.eqb_eq in Hh. subst h.
    destruct (scanLink_cases acc seen l)
      as [[_ [Hin|Hbad]]|(_ & _ & [Heq|[_ Hskip]])].
    + contradiction.
    + congruence.
    + rewrite Heq. apply scanLinks_keeps_acc, in_or_app. right. now left.
    + congruence.
  - apply String.eqb_neq in Hh.
    destruct (scanLink_cases acc seen link)
      as [[Heq _]|(_ & _ & [Heq|[Heq _]])]; rewrite Heq; apply IH; auto;
      (apply not_elem_of_union; split; [apply not_elem_of_singleton; congruence|exact Hfresh]).
Qed.

(** X19: no eligible link is dropped.  If the first link of the primary
    selector with a given raw href does not point at the "not-turned-in"
    listing and its record passes the classifier, then the extraction
    returns that record. *)
Theorem eligible_link_is_extracted (doc : Element) (h : string) (l : Node) :
  firstLinkWith h (primaryLinks doc) = Some l ->
  includes h "not-turned-in" = false ->
  shouldSkip (title (primaryRecord l)) (course (primaryRecord l)) = false ->
  exists result, extract doc = Normal result /\ In (primaryRecord l) result.
Proof.
  intros Hfind Hntl Hkeep.
  assert (Hin : In (primaryRecord l) (fst (primaryPass doc))).
  { apply (scanLinks_complete (primaryLinks doc) h l [] ∅); auto.
    apply not_elem_of_empty. }
  unfold extract.
  destruct (fst (primaryPass doc)) as [|a0 rest] eqn:Hfst; [destruct Hin|].
  cbn [length Nat.eqb]. eauto.
Qed.

Lemma eligible_link_is_extracted_witness :
  firstLinkWith "/c/1/a/2/details" (primaryLinks periodPage) = Some periodLink
  /\ includes "/c/1/a/2/details" "not-turned-in" = false
  /\ shouldSkip (title (primaryRecord periodLink)) (course (primaryRecord periodLink)) = false
  /\ exists result,
      extract periodPage = Normal result /\ In (primaryRecord periodLink) result.
Proof.
  assert (H1 : firstLinkWith "/c/1/a/2/details" (primaryLinks periodPage) = Some periodLink)
    by (vm_compute; reflexivity).
  assert (H2 : includes "/c/1/a/2/details" "not-turned-in" = false) by reflexivity.
  assert (H3 : shouldSkip (title (primaryRecord periodLink))
                          (course (primaryRecord periodLink)) = false)
    by (vm_compute; reflexivity).
  repeat (split; [assumption|]).
  apply (eligible_link_is_extracted periodPage "/c/1/a/2/details" periodLink H1 H2 H3).
Defined.

Lemma scanItems_throws (items : list Node) :
  forall st : ScanState,
    (exists item, In item items /\ innerText (element item) = None) ->
    exists e, scanItems items st = Throw e /\ errName e = "TypeError".
Proof.
  induction items as [|item items IH]; intros st (bad & Hin & Hbad); [destruct Hin|].
  cbn [scanItems].
  destruct (scanItem st item) as [st1|e] eqn:Hstep.
  - destruct Hin as [->|Hin].
    + unfold scanItem in Hstep. destruct st. rewrite Hbad in Hstep. discriminate.
    + apply IH. eauto.
  - exists e. split; [reflexivity|].
    unfold scanItem in Hstep. destruct st as [acc seen].
    destruct (innerText (element item)); [|now injection Hstep as <-].
    destruct (querySelector anyDetailsSelector item); [|discriminate].
    destruct (negb _ && negb _); discriminate.
Qed.

(** X20: the secondary pass reads [innerText] of every card unguarded.  If
    the primary pass keeps nothing and some element matched by the card
    selector has no [innerText] (an element that is not an HTMLElement),
    the extraction raises a TypeError, whatever the other cards hold; the
    run then ends with an "Error: ..." status instead of a list of
    records. *)
Theorem card_without_innerText_breaks_extraction (doc : Element) :
  fst (primaryPass doc) = [] ->
  (exists item, In item (cardItems doc) /\ innerText (element item) = None) ->
  exists e, extract doc = Throw e /\ errName e = "TypeError".
Proof.
  intros Hprimary Hbad. unfold extract, secondaryPass. rewrite Hprimary.
  cbn [length Nat.eqb].
  destruct (scanItems_throws (cardItems doc) (primaryPass doc) Hbad) as (e & Hrun & Hname).
  fold (cardItems doc). rewrite Hrun. eauto.
Qed.

Lemma card_without_innerText_breaks_extraction_witness :
  fst (primaryPass iconPage) = []
  /\ (exists item, In item (cardItems iconPage) /\ innerText (element item) = None)
  /\ exists e, extract iconPage = Throw e /\ errName e = "TypeError".
Proof.
  assert (H1 : fst (primaryPass iconPage) = []) by (vm_compute; reflexivity).
  assert (H2 : exists item, In item (cardItems iconPage) /\ innerText (element item) = None).
  { eexists. split; [left; reflexivity|reflexivity]. }
  split; [exact H1|]. split; [exact H2|].
  apply (card_without_innerText_breaks_extraction iconPage H1 H2).
Defined.
